(** * inertia-engine: the orchestration pipeline of [internal/engine/engine.go]

    A shallow embedding of the Go package [engine] (and of the flag handling
    of [main]) together with the properties the specification states about
    it.  Go strings are byte strings: they are modelled by [string], whose
    characters are the 256 byte values.  Go [int] and [time.Duration] are
    64-bit integers, modelled by [Z] with the range written out where the
    code depends on it; [float64] is IEEE-754 binary64, modelled by
    [spec_float] at precision 53 and maximal exponent 1024. *)

From Stdlib Require Import ZArith Bool Ascii String DecimalString List Lia.
From Stdlib Require Import Floats.SpecFloat.
From stdpp Require Import base option list gmap strings.

Local Open Scope Z_scope.
Import ListNotations.

(** ** Package [strings] *)

Module strings.

(** [strings.Index(s, substr)]: byte offset of the first occurrence of
    [substr] in [s], or -1.  [IndexFrom i] is the search in a suffix that
    starts at offset [i]. *)
Fixpoint IndexFrom (i : Z) (s substr : string) : Z :=
  if String.prefix substr s then i
  else match s with
       | EmptyString => -1
       | String _ s' => IndexFrom (i + 1) s' substr
       end.

Definition Index (s substr : string) : Z := IndexFrom 0 s substr.

(** [strings.LastIndex(s, substr)]: offset of the last occurrence, or -1. *)
Fixpoint LastIndexFrom (i : Z) (s substr : string) : Z :=
  match s with
  | EmptyString => if String.prefix substr s then i else -1
  | String _ s' =>
      let r := LastIndexFrom (i + 1) s' substr in
      if 0 <=? r then r
      else if String.prefix substr s then i else -1
  end.

Definition LastIndex (s substr : string) : Z := LastIndexFrom 0 s substr.

(** [strings.Contains(s, substr)] is [Index(s, substr) >= 0]. *)
Definition Contains (s substr : string) : bool := 0 <=? Index s substr.

(** [strings.Split(s, sep)] for a separator of one byte: the pieces
    between the occurrences of [sep]; [n] occurrences give [n + 1] pieces,
    empty ones included. *)
Fixpoint Split (s : string) (sep : ascii) : list string :=
  match s with
  | EmptyString => [EmptyString]
  | String c s' =>
      if Ascii.eqb c sep then EmptyString :: Split s' sep
      else match Split s' sep with
           | [] => [String c EmptyString]
           | w :: ws => String c w :: ws
           end
  end.

(** The ASCII part of [strings.ToLower]: the bytes 'A'..'Z' are mapped to
    'a'..'z', every other byte is kept. *)
Definition lower_byte (c : ascii) : ascii :=
  let n := nat_of_ascii c in
  if ((65 <=? n) && (n <=? 90))%nat then ascii_of_nat (n + 32) else c.

Fixpoint ToLowerASCII (s : string) : string :=
  match s with
  | EmptyString => EmptyString
  | String c s' => String (lower_byte c) (ToLowerASCII s')
  end.

End strings.

(** ** [float64] *)

Module float64.

Definition prec : Z := 53.
Definition emax : Z := 1024.

Definition zero : spec_float := S754_zero false.

(** [float64(n)] for an integer [n]: the nearest binary64 value. *)
Definition of_int (n : Z) : spec_float := binary_normalize prec emax n 0 false.

Definition add : spec_float -> spec_float -> spec_float := SFadd prec emax.
Definition div : spec_float -> spec_float -> spec_float := SFdiv prec emax.

(** [x > y] *)
Definition gtb (x y : spec_float) : bool := SFltb y x.

(** The integer part of a finite value, rounded toward zero. *)
Definition trunc (x : spec_float) : Z :=
  match x with
  | S754_finite s m e =>
      cond_Zopp s (match e with
                   | Zneg p => Z.pos m / 2 ^ Z.pos p
                   | _ => Z.pos m * 2 ^ e
                   end)
  | _ => 0
  end.

(** The conversion [int(x)]: the fractional part is discarded (truncation
    toward zero).  Where the value does not fit the result is
    implementation-specific; amd64 gives the smallest integer. *)
Definition to_int (x : spec_float) : Z :=
  match x with
  | S754_zero _ => 0
  | S754_finite _ _ _ =>
      let r := trunc x in
      if (- 2 ^ 63 <=? r) && (r <=? 2 ^ 63 - 1) then r else - 2 ^ 63
  | _ => - 2 ^ 63
  end.

(** The decimal [(-1)^neg * m * 10^e] rounded to the nearest binary64
    value, ties to even ([strconv.ParseFloat]); [None] when it is out of
    range. *)
Definition of_decimal (neg : bool) (m : N) (e : Z) : option spec_float :=
  let r :=
    match m with
    | N0 => S754_zero neg
    | Npos p =>
        match e with
        | Zneg k => div (S754_finite neg p 0) (S754_finite false (Pos.pow 10 k) 0)
        | Z0 => binary_round prec emax neg p 0
        | Zpos k => binary_round prec emax neg (p * Pos.pow 10 k) 0
        end
    end in
  match r with
  | S754_infinity _ | S754_nan => None
  | _ => Some r
  end.

End float64.

(** ** Package [encoding/json], as far as the engine uses it

    A model of [json.Unmarshal] into the two targets the engine decodes
    into: a [float64] ([Entity.GetSpanYears]) and the anonymous decision
    struct of [ParseDecisionResponse].  The input is first checked to be one
    well-formed JSON text; the value is then stored field by field, a
    mismatch of types being remembered as the error of the call while the
    remaining fields are still visited.  Not modelled: the replacement of
    ill-formed UTF-8 inside string literals by U+FFFD, and the nesting
    limit of 10000. *)

Module json.

Record number := {
  num_neg : bool;            (* a leading minus sign *)
  num_digits : N;            (* the digits of integer and fraction part *)
  num_exp10 : Z;             (* exponent minus the number of fraction digits *)
  num_integral : bool        (* neither fraction nor exponent part *)
}.

#[local] Set Warnings "-register-all".
Inductive value :=
| Null
| Bool (b : bool)
| Number (n : number)
| Str (s : string)
| Array (l : list value)
| Object (l : list (string * value)).

Inductive error :=
| SyntaxError
| UnmarshalTypeError (found : string) (field : string).

(** [err.Error()], in kind. *)
Definition Error (e : error) : string :=
  match e with
  | SyntaxError => "invalid JSON input"
  | UnmarshalTypeError found field =>
      "json: cannot unmarshal " +:+ found +:+ " into Go struct field " +:+ field
  end.

Definition is_ws (c : ascii) : bool :=
  let n := nat_of_ascii c in
  ((n =? 32) || (n =? 9) || (n =? 10) || (n =? 13))%nat.

Fixpoint skip_ws (s : string) : string :=
  match s with
  | String c r => if is_ws c then skip_ws r else s
  | EmptyString => s
  end.

Definition digit_of (c : ascii) : option N :=
  let n := N_of_ascii c in
  if ((48 <=? n) && (n <=? 57))%N then Some (n - 48)%N else None.

Definition hex_of (c : ascii) : option N :=
  let n := N_of_ascii c in
  if ((48 <=? n) && (n <=? 57))%N then Some (n - 48)%N
  else if ((97 <=? n) && (n <=? 102))%N then Some (n - 87)%N
  else if ((65 <=? n) && (n <=? 70))%N then Some (n - 55)%N
  else None.

(** The longest run of digits at the head of [s], accumulated on [acc];
    [cnt] counts them. *)
Fixpoint take_digits (s : string) (acc : N) (cnt : nat) : N * nat * string :=
  match s with
  | String c r =>
      match digit_of c with
      | Some d => take_digits r (acc * 10 + d)%N (S cnt)
      | None => (acc, cnt, s)
      end
  | EmptyString => (acc, cnt, s)
  end.

(** A JSON number: an optional minus sign; a single 0, or a non-zero digit
    followed by digits; optionally a dot and one or more digits; optionally e
    or E, a sign and one or more digits. *)
Definition parse_sign (s : string) : bool * string :=
  match s with
  | String c r => if Ascii.eqb c "-" then (true, r) else (false, s)
  | EmptyString => (false, s)
  end.

Definition parse_int_part (s : string) : option (N * string) :=
  match s with
  | String c r =>
      if Ascii.eqb c "0" then Some (0%N, r)
      else match take_digits s 0%N 0%nat with
           | (m, S _, r') => Some (m, r')
           | (_, O, _) => None
           end
  | EmptyString => None
  end.

(** The digits of the fraction are accumulated on those of the integer
    part; their number is returned. *)
Definition parse_frac_part (m : N) (s : string) : option (N * Z * bool * string) :=
  match s with
  | String c r =>
      if Ascii.eqb c "." then
        match take_digits r m 0%nat with
        | (m', S cnt, r') => Some (m', Z.of_nat (S cnt), true, r')
        | (_, O, _) => None
        end
      else Some (m, 0, false, s)
  | EmptyString => Some (m, 0, false, s)
  end.

Definition parse_exp_sign (s : string) : bool * string :=
  match s with
  | String c r =>
      if Ascii.eqb c "+" then (false, r)
      else if Ascii.eqb c "-" then (true, r)
      else (false, s)
  | EmptyString => (false, s)
  end.

Definition parse_exp_part (s : string) : option (Z * bool * string) :=
  match s with
  | String c r =>
      if Ascii.eqb c "e" || Ascii.eqb c "E" then
        let '(sgn, r1) := parse_exp_sign r in
        match take_digits r1 0%N 0%nat with
        | (x, S _, r2) => Some (cond_Zopp sgn (Z.of_N x), true, r2)
        | (_, O, _) => None
        end
      else Some (0, false, s)
  | EmptyString => Some (0, false, s)
  end.

Definition parse_number (s : string) : option (number * string) :=
  let '(neg, s1) := parse_sign s in
  match parse_int_part s1 with
  | None => None
  | Some (m, s2) =>
      match parse_frac_part m s2 with
      | None => None
      | Some (m', fl, has_frac, s3) =>
          match parse_exp_part s3 with
          | None => None
          | Some (x, has_exp, s4) =>
              Some ({| num_neg := neg; num_digits := m'; num_exp10 := x - fl;
                       num_integral := negb (has_frac || has_exp) |}, s4)
          end
      end
  end.

(** UTF-8 encoding of a code point ([utf8.EncodeRune]). *)
Definition byte (n : N) : ascii := ascii_of_N (n mod 256).

Definition encode_rune (r : N) : string :=
  if (r <? 128)%N then String (byte r) EmptyString
  else if (r <? 2048)%N then
    String (byte (192 + r / 64)) (String (byte (128 + r mod 64)) EmptyString)
  else if (r <? 65536)%N then
    String (byte (224 + r / 4096))
      (String (byte (128 + (r / 64) mod 64))
         (String (byte (128 + r mod 64)) EmptyString))
  else
    String (byte (240 + r / 262144))
      (String (byte (128 + (r / 4096) mod 64))
         (String (byte (128 + (r / 64) mod 64))
            (String (byte (128 + r mod 64)) EmptyString))).

Definition hex4 (a b c d : ascii) : option N :=
  match hex_of a, hex_of b, hex_of c, hex_of d with
  | Some x, Some y, Some z, Some w => Some (((x * 16 + y) * 16 + z) * 16 + w)%N
  | _, _, _, _ => None
  end.

Definition simple_escape (c : ascii) : option ascii :=
  match c with
  | "034"%char => Some "034"%char
  | "\"%char => Some "\"%char
  | "/"%char => Some "/"%char
  | "b"%char => Some "008"%char
  | "f"%char => Some "012"%char
  | "n"%char => Some "010"%char
  | "r"%char => Some "013"%char
  | "t"%char => Some "009"%char
  | _ => None
  end.

Definition replacement_char : N := 65533.

(** [prepend u r]: the bytes [u] put before the unquoted rest [r]. *)
Definition prepend (u : string) (r : option (string * string))
  : option (string * string) :=
  match r with
  | Some (t, k) => Some (u +:+ t, k)
  | None => None
  end.

(** The body of a string literal, after its opening quote: the unquoted
    bytes and what follows the closing quote.  A [\u] escape of a high
    surrogate followed by one of a low surrogate is one code point; any
    other surrogate is replaced by U+FFFD. *)
Fixpoint parse_string (s : string) : option (string * string) :=
  match s with
  | EmptyString => None
  | String c r =>
      if Ascii.eqb c "034" then Some (EmptyString, r)
      else if Ascii.eqb c "\" then
        match r with
        | EmptyString => None
        | String e r1 =>
            if Ascii.eqb e "u" then
              match r1 with
              | String h1 (String h2 (String h3 (String h4 r2))) =>
                  match hex4 h1 h2 h3 h4 with
                  | None => None
                  | Some hi =>
                      if ((55296 <=? hi) && (hi <? 57344))%N then
                        match r2 with
                        | String b (String u (String l1 (String l2
                            (String l3 (String l4 r3))))) =>
                            match hex4 l1 l2 l3 l4 with
                            | Some lo =>
                                if Ascii.eqb b "\" && Ascii.eqb u "u"
                                   && ((hi <? 56320) && (56320 <=? lo)
                                       && (lo <? 57344))%N
                                then
                                  prepend
                                    (encode_rune
                                       (65536 + (hi - 55296) * 1024 + (lo - 56320)))
                                    (parse_string r3)
                                else
                                  prepend (encode_rune replacement_char)
                                    (parse_string r2)
                            | None =>
                                prepend (encode_rune replacement_char)
                                  (parse_string r2)
                            end
                        | _ =>
                            prepend (encode_rune replacement_char) (parse_string r2)
                        end
                      else prepend (encode_rune hi) (parse_string r2)
                  end
              | _ => None
              end
            else
              match simple_escape e with
              | Some d => prepend (String d EmptyString) (parse_string r1)
              | None => None
              end
        end
      else if (nat_of_ascii c <? 32)%nat then None
      else prepend (String c EmptyString) (parse_string r)
  end.

(** [strip_prefix p s]: what follows [p] in [s], when [s] starts with [p]. *)
Fixpoint strip_prefix (p s : string) : option string :=
  match p, s with
  | EmptyString, _ => Some s
  | String a p', String b s' => if Ascii.eqb a b then strip_prefix p' s' else None
  | String _ _, EmptyString => None
  end.

Definition head_is (c : ascii) (s : string) : option string :=
  match s with
  | String d r => if Ascii.eqb c d then Some r else None
  | EmptyString => None
  end.

(** One JSON value at the head of [s], leading white space skipped, and the
    rest of the input.  [fuel] bounds the recursion; [parse] gives enough. *)
Fixpoint parse_value (fuel : nat) (s : string) {struct fuel}
  : option (value * string) :=
  match fuel with
  | O => None
  | S fuel' =>
      let s0 := skip_ws s in
      match head_is "{" s0 with
      | Some r =>
          match head_is "}" (skip_ws r) with
          | Some k => Some (Object [], k)
          | None =>
              match parse_members fuel' r with
              | Some (ms, k) => Some (Object ms, k)
              | None => None
              end
          end
      | None =>
      match head_is "[" s0 with
      | Some r =>
          match head_is "]" (skip_ws r) with
          | Some k => Some (Array [], k)
          | None =>
              match parse_elements fuel' r with
              | Some (vs, k) => Some (Array vs, k)
              | None => None
              end
          end
      | None =>
      match head_is "034" s0 with
      | Some r =>
          match parse_string r with
          | Some (t, k) => Some (Str t, k)
          | None => None
          end
      | None =>
      match strip_prefix "true" s0 with
      | Some k => Some (Bool true, k)
      | None =>
      match strip_prefix "false" s0 with
      | Some k => Some (Bool false, k)
      | None =>
      match strip_prefix "null" s0 with
      | Some k => Some (Null, k)
      | None =>
          match parse_number s0 with
          | Some (n, k) => Some (Number n, k)
          | None => None
          end
      end end end end end end
  end
with parse_elements (fuel : nat) (s : string) {struct fuel}
  : option (list value * string) :=
  match fuel with
  | O => None
  | S fuel' =>
      match parse_value fuel' s with
      | Some (v, r) =>
          let r0 := skip_ws r in
          match head_is "," r0 with
          | Some r' =>
              match parse_elements fuel' r' with
              | Some (vs, k) => Some (v :: vs, k)
              | None => None
              end
          | None =>
              match head_is "]" r0 with
              | Some k => Some ([v], k)
              | None => None
              end
          end
      | None => None
      end
  end
with parse_members (fuel : nat) (s : string) {struct fuel}
  : option (list (string * value) * string) :=
  match fuel with
  | O => None
  | S fuel' =>
      match head_is "034" (skip_ws s) with
      | Some r =>
          match parse_string r with
          | Some (key, r1) =>
              match head_is ":" (skip_ws r1) with
              | Some r2 =>
                  match parse_value fuel' r2 with
                  | Some (v, r3) =>
                      let r4 := skip_ws r3 in
                      match head_is "," r4 with
                      | Some r5 =>
                          match parse_members fuel' r5 with
                          | Some (ms, k) => Some ((key, v) :: ms, k)
                          | None => None
                          end
                      | None =>
                          match head_is "}" r4 with
                          | Some k => Some ([(key, v)], k)
                          | None => None
                          end
                      end
                  | None => None
                  end
              | None => None
              end
          | None => None
          end
      | None => None
      end
  end.

(** The whole input as one JSON text: a value, white space around it. *)
Definition parse (data : string) : option value :=
  match parse_value (2 * String.length data + 2) data with
  | Some (v, r) =>
      match skip_ws r with
      | EmptyString => Some v
      | String _ _ => None
      end
  | None => None
  end.

Definition kind_of (v : value) : string :=
  match v with
  | Null => "null"
  | Bool _ => "bool"
  | Number _ => "number"
  | Str _ => "string"
  | Array _ => "array"
  | Object _ => "object"
  end.

(** *** Storing into Go values

    Each [store_*] gives the new content of the target and the error, if
    any; [null] leaves a non-pointer target as it is and sets a pointer or
    slice to nil. *)

Definition store_string (field : string) (v : value) (old : string)
  : string * option error :=
  match v with
  | Null => (old, None)
  | Str s => (s, None)
  | _ => (old, Some (UnmarshalTypeError (kind_of v) field))
  end.

Definition store_string_ptr (field : string) (v : value) (old : option string)
  : option string * option error :=
  match v with
  | Null => (None, None)
  | Str s => (Some s, None)
  | _ => (Some (default EmptyString old), Some (UnmarshalTypeError (kind_of v) field))
  end.

(** An [int] takes an integral literal within 64 bits ([strconv.ParseInt]). *)
Definition int_of_number (n : number) : option Z :=
  if num_integral n then
    let z := cond_Zopp (num_neg n) (Z.of_N (num_digits n)) in
    if (- 2 ^ 63 <=? z) && (z <=? 2 ^ 63 - 1) then Some z else None
  else None.

Definition store_int_ptr (field : string) (v : value) (old : option Z)
  : option Z * option error :=
  match v with
  | Null => (None, None)
  | Number n =>
      match int_of_number n with
      | Some z => (Some z, None)
      | None => (Some (default 0 old), Some (UnmarshalTypeError "number" field))
      end
  | _ => (Some (default 0 old), Some (UnmarshalTypeError (kind_of v) field))
  end.

Definition float_of_number (n : number) : option spec_float :=
  float64.of_decimal (num_neg n) (num_digits n) (num_exp10 n).

Definition store_float64 (field : string) (v : value) (old : spec_float)
  : spec_float * option error :=
  match v with
  | Null => (old, None)
  | Number n =>
      match float_of_number n with
      | Some x => (x, None)
      | None => (old, Some (UnmarshalTypeError "number" field))
      end
  | _ => (old, Some (UnmarshalTypeError (kind_of v) field))
  end.

Definition first_error (e1 e2 : option error) : option error :=
  match e1 with
  | Some _ => e1
  | None => e2
  end.

(** The elements of an array, stored slot by slot over what the slice held. *)
Fixpoint store_elements (field : string) (vs : list value) (old : list string)
  : list string * option error :=
  match vs with
  | [] => ([], None)
  | v :: vs' =>
      let '(x, e1) := store_string field v (hd EmptyString old) in
      let '(xs, e2) := store_elements field vs' (tl old) in
      (x :: xs, first_error e1 e2)
  end.

Definition store_string_slice (field : string) (v : value) (old : list string)
  : list string * option error :=
  match v with
  | Null => ([], None)
  | Array vs => store_elements field vs old
  | _ => (old, Some (UnmarshalTypeError (kind_of v) field))
  end.

(** *** Field names

    A key selects the field whose name it equals up to case folding
    ([foldName]): ASCII letters fold to upper case, and so do the two other
    characters that fold to an ASCII letter, U+017F and U+212A. *)

Definition upper_byte (c : ascii) : ascii :=
  let n := nat_of_ascii c in
  if ((97 <=? n) && (n <=? 122))%nat then ascii_of_nat (n - 32) else c.

Fixpoint fold_name (s : string) : string :=
  match s with
  | String "197"%char (String "191"%char r) => String "S" (fold_name r)
  | String "226"%char (String "132"%char (String "170"%char r)) =>
      String "K" (fold_name r)
  | String c r => String (upper_byte c) (fold_name r)
  | EmptyString => EmptyString
  end.

(** *** The decision struct of [ParseDecisionResponse] (lines 287-294) *)

Record decision_struct := {
  action : string;                (* `json:"action"` *)
  priority : option Z;            (* `json:"priority"`, *int *)
  new_content : option string;    (* `json:"new_content"`, *string *)
  subtasks : list string;         (* `json:"subtasks"` *)
  reasoning : string;             (* `json:"reasoning"` *)
  inertia_score : spec_float      (* `json:"inertia_score"` *)
}.

Definition zero_struct : decision_struct :=
  {| action := EmptyString; priority := None; new_content := None;
     subtasks := []; reasoning := EmptyString; inertia_score := float64.zero |}.

Definition store_member (st : decision_struct * option error) (kv : string * value)
  : decision_struct * option error :=
  let '(r, err) := st in
  let '(k, v) := kv in
  let name := fold_name k in
  if String.eqb name "ACTION" then
    let '(x, e) := store_string "action" v (action r) in
    ({| action := x; priority := priority r; new_content := new_content r;
        subtasks := subtasks r; reasoning := reasoning r;
        inertia_score := inertia_score r |}, first_error err e)
  else if String.eqb name "PRIORITY" then
    let '(x, e) := store_int_ptr "priority" v (priority r) in
    ({| action := action r; priority := x; new_content := new_content r;
        subtasks := subtasks r; reasoning := reasoning r;
        inertia_score := inertia_score r |}, first_error err e)
  else if String.eqb name "NEW_CONTENT" then
    let '(x, e) := store_string_ptr "new_content" v (new_content r) in
    ({| action := action r; priority := priority r; new_content := x;
        subtasks := subtasks r; reasoning := reasoning r;
        inertia_score := inertia_score r |}, first_error err e)
  else if String.eqb name "SUBTASKS" then
    let '(x, e) := store_string_slice "subtasks" v (subtasks r) in
    ({| action := action r; priority := priority r; new_content := new_content r;
        subtasks := x; reasoning := reasoning r;
        inertia_score := inertia_score r |}, first_error err e)
  else if String.eqb name "REASONING" then
    let '(x, e) := store_string "reasoning" v (reasoning r) in
    ({| action := action r; priority := priority r; new_content := new_content r;
        subtasks := subtasks r; reasoning := x;
        inertia_score := inertia_score r |}, first_error err e)
  else if String.eqb name "INERTIA_SCORE" then
    let '(x, e) := store_float64 "inertia_score" v (inertia_score r) in
    ({| action := action r; priority := priority r; new_content := new_content r;
        subtasks := subtasks r; reasoning := reasoning r;
        inertia_score := x |}, first_error err e)
  else (r, err).

(** [json.Unmarshal(data, &result)] for a zero [result] of the decision
    struct: the filled struct, or the error. *)
Definition Unmarshal_decision (data : string) : decision_struct + error :=
  match parse data with
  | None => inr SyntaxError
  | Some Null => inl zero_struct
  | Some (Object ms) =>
      match fold_left store_member ms (zero_struct, None) with
      | (r, None) => inl r
      | (_, Some e) => inr e
      end
  | Some v => inr (UnmarshalTypeError (kind_of v) EmptyString)
  end.

(** [json.Unmarshal(data, &num)] for [var num float64]. *)
Definition Unmarshal_float64 (data : string) : spec_float + error :=
  match parse data with
  | None => inr SyntaxError
  | Some v =>
      match store_float64 EmptyString v float64.zero with
      | (x, None) => inl x
      | (_, Some e) => inr e
      end
  end.

End json.

(** ** Data model ([engine.go], lines 21-102) *)

(** [time.Time] as nanoseconds since the Unix epoch; [time.Duration] and
    [int] are 64-bit. *)
Definition minInt64 : Z := - 2 ^ 63.
Definition maxInt64 : Z := 2 ^ 63 - 1.

Record Entity := {
  Name : string;
  Context : string;
  Sources : list string;
  SpanYears : string;          (* json.RawMessage: the raw bytes *)
  Status : string;
  Note : string;
  EmotionalValence : string
}.

Record State := {
  Energy : string;
  Mood : string;
  Environment : string;
  WorkVolatility : string
}.

Record Gazetteer := {
  People : list Entity;
  Projects : list Entity;
  Places : list Entity;
  Concepts : list Entity
}.

Record Intentions := {
  Explicit : list string;
  Implicit : list string
}.

Module InertiaContext.
Record t := {
  Date : string;
  Gazetteer : Gazetteer;
  State : State;
  Intentions : Intentions
}.
End InertiaContext.

Record Task := {
  ID : string;
  Content : string;
  Description : string;
  Priority : Z;
  ParentID : option string;    (* *string: nil or a pointer to a string *)
  AddedAt : Z;
  UpdatedAt : Z;
  Labels : list string;
  ProjectID : string
}.

(** ** Leaf filter ([FilterLeafNodes], lines 128-142) *)

(** Reading a [map[string]bool] at a missing key gives the zero value. *)
Definition map_index (m : gmap string bool) (k : string) : bool :=
  default false (m !! k).

(** First loop: [parentIDs[*task.ParentID] = true] for every task with a
    parent. *)
Definition collectParentIDs (tasks : list Task) : gmap string bool :=
  fold_left
    (fun parentIDs task =>
       match ParentID task with
       | Some p => <[p := true]> parentIDs
       | None => parentIDs
       end)
    tasks ∅.

(** Second loop: append the tasks whose own id is not a key set to true. *)
Definition FilterLeafNodes (tasks : list Task) : list Task :=
  let parentIDs := collectParentIDs tasks in
  fold_left
    (fun leafTasks task =>
       if negb (map_index parentIDs (ID task)) then leafTasks ++ [task]
       else leafTasks)
    tasks [].

(** The specification's wording: the set of identifiers that appear as some
    task's parent identifier, and the input restricted to the tasks outside
    it. *)
Definition is_parent_id (tasks : list Task) (i : string) : Prop :=
  exists u, In u tasks /\ ParentID u = Some i.

Definition is_parent_idb (tasks : list Task) (i : string) : bool :=
  existsb
    (fun u => match ParentID u with
              | Some p => String.eqb p i
              | None => false
              end)
    tasks.

Definition leaves_spec (tasks : list Task) : list Task :=
  List.filter (fun t => negb (is_parent_idb tasks (ID t))) tasks.


(** ** Decisions and task contexts ([engine.go], lines 84-102) *)

Module Decision.
Record t := {
  TaskID : string;
  Action : string;
  Priority : option Z;         (* *int *)
  NewContent : option string;  (* *string *)
  Subtasks : list string;
  Reasoning : string;
  InertiaScore : spec_float
}.
End Decision.

Module TaskContext.
Record t := {
  Task : Task;
  RelatedPeople : list Entity;
  RelatedProjects : list Entity;
  RelatedConcepts : list Entity;
  State : State;
  AgeDays : Z;
  HistoricalWeight : spec_float
}.
End TaskContext.

(** The five action tags of the data model. *)
Definition action_tags : list string :=
  ["skip"; "decompose"; "ice-box"; "reprioritize"; "recontextualize"].

(** ** [Entity.GetSpanYears] (lines 45-54) *)

Definition GetSpanYears (e : Entity) : spec_float :=
  if (String.length (SpanYears e) =? 0)%nat then float64.zero
  else match json.Unmarshal_float64 (SpanYears e) with
       | inl num => num
       | inr _ => float64.zero
       end.

(** ** Package [time] *)

Module time.

Definition Hour : Z := 3600000000000.

(** [t.Sub(u)]: the difference in nanoseconds, saturating at the ends of
    the 64-bit range of [Duration]. *)
Definition Sub (t u : Z) : Z :=
  let d := t - u in
  if d <? minInt64 then minInt64
  else if maxInt64 <? d then maxInt64
  else d.

(** [d.Hours()]: [hour := d / Hour; nsec := d % Hour;
    float64(hour) + float64(nsec)/(60*60*1e9)], the integer division
    truncating toward zero. *)
Definition Hours (d : Z) : spec_float :=
  let hour := Z.quot d Hour in
  let nsec := Z.rem d Hour in
  float64.add (float64.of_int hour)
    (float64.div (float64.of_int nsec) (float64.of_int 3600000000000)).

End time.

(** ** Contextualizer ([ContextualizeTask], lines 177-220)

    [strings.ToLower] is a parameter of the section: its Unicode case
    mapping is the library's; [strings.ToLowerASCII] is its restriction to
    ASCII text.  The value [now] is what the call [NowFunc()] returns. *)

Section Contextualizer.

Variable ToLower : string -> string.

(** Line 178: the search text. *)
Definition taskText (task : Task) : string :=
  ToLower (Content task +:+ " " +:+ Description task).

(** Lines 179-190: the loop shared by people and projects. *)
Definition relatedByName (text : string) (entities : list Entity) : list Entity :=
  fold_left
    (fun related e =>
       if strings.Contains text (ToLower (Name e)) then related ++ [e]
       else related)
    entities [].

(** Lines 194-199: the inner loop over the keywords, left at the first hit. *)
Fixpoint anyKeyword (text : string) (keywords : list string) : bool :=
  match keywords with
  | [] => false
  | kw :: rest => if strings.Contains text kw then true else anyKeyword text rest
  end.

Definition keywordsOf (concept : Entity) : list string :=
  strings.Split (ToLower (Name concept)) " ".

(** Lines 191-200. *)
Definition relatedByKeyword (text : string) (concepts : list Entity) : list Entity :=
  fold_left
    (fun related concept =>
       if anyKeyword text (keywordsOf concept) then related ++ [concept]
       else related)
    concepts [].

(** Line 202: [int(NowFunc().Sub(task.AddedAt).Hours() / 24)]. *)
Definition ageDays (now : Z) (task : Task) : Z :=
  float64.to_int
    (float64.div (time.Hours (time.Sub now (AddedAt task))) (float64.of_int 24)).

(** Lines 203-209: the running maximum, started at the zero value. *)
Definition maxSpanOf (relatedConcepts : list Entity) : spec_float :=
  fold_left
    (fun maxSpan concept =>
       let years := GetSpanYears concept in
       if float64.gtb years maxSpan then years else maxSpan)
    relatedConcepts float64.zero.

Definition ContextualizeTask (now : Z) (task : Task) (context : InertiaContext.t)
  : TaskContext.t :=
  let text := taskText task in
  let gazetteer := InertiaContext.Gazetteer context in
  let relatedPeople := relatedByName text (People gazetteer) in
  let relatedProjects := relatedByName text (Projects gazetteer) in
  let relatedConcepts := relatedByKeyword text (Concepts gazetteer) in
  {| TaskContext.Task := task;
     TaskContext.RelatedPeople := relatedPeople;
     TaskContext.RelatedProjects := relatedProjects;
     TaskContext.RelatedConcepts := relatedConcepts;
     TaskContext.State := InertiaContext.State context;
     TaskContext.AgeDays := ageDays now task;
     TaskContext.HistoricalWeight := maxSpanOf relatedConcepts |}.

End Contextualizer.

(** ** Response parser ([ParseDecisionResponse], lines 280-307) *)

(** What a call does: it returns, or it panics. *)
Inductive outcome (A : Type) :=
| Returned (a : A)
| Panicked (msg : string).
Arguments Returned {A} a.
Arguments Panicked {A} msg.

(** The slice expression [s[lo:hi]]: a run-time panic unless
    [0 <= lo <= hi <= len(s)]. *)
Definition slice (s : string) (lo hi : Z) : option string :=
  if (0 <=? lo) && (lo <=? hi) && (hi <=? Z.of_nat (String.length s))
  then Some (String.substring (Z.to_nat lo) (Z.to_nat (hi - lo)) s)
  else None.

Definition skipDecision (taskID reason : string) : Decision.t :=
  {| Decision.TaskID := taskID; Decision.Action := "skip";
     Decision.Priority := None; Decision.NewContent := None;
     Decision.Subtasks := []; Decision.Reasoning := reason;
     Decision.InertiaScore := float64.zero |}.

Definition ParseDecisionResponse (response taskID : string) : outcome Decision.t :=
  let start := strings.Index response "{" in
  let end_ := strings.LastIndex response "}" in
  if (start =? -1) || (end_ =? -1) then
    Returned (skipDecision taskID "Failed to parse LLM response")
  else
    match slice response start (end_ + 1) with
    | None => Panicked "slice bounds out of range"
    | Some jsonStr =>
        match json.Unmarshal_decision jsonStr with
        | inr err =>
            Returned (skipDecision taskID ("JSON parse error: " +:+ json.Error err))
        | inl result =>
            Returned
              {| Decision.TaskID := taskID;
                 Decision.Action := json.action result;
                 Decision.Priority := json.priority result;
                 Decision.NewContent := json.new_content result;
                 Decision.Subtasks := json.subtasks result;
                 Decision.Reasoning := json.reasoning result;
                 Decision.InertiaScore := json.inertia_score result |}
        end
    end.

(** ** Process invoker (package [runner]) and its recording stub *)

Module runner.

(** The interface [CommandRunner] over a world [W] that the calls change;
    an error is its text. *)
Class CommandRunner (W : Type) := {
  Run : W -> string -> list string -> W * option string;
  Output : W -> string -> list string -> W * (string * option string);
  RunWithStdin : W -> string -> string -> list string -> W * (string * option string)
}.

(** [MockRunner] of the test suite: it records every invocation and answers
    from its tables, by command name. *)
Record MockRunner := {
  CalledCommands : list (list string);
  Outputs : gmap string string;
  Errors : gmap string string;
  StdinSent : string
}.

Definition record_call (m : MockRunner) (name : string) (args : list string)
  : MockRunner :=
  {| CalledCommands := CalledCommands m ++ [name :: args];
     Outputs := Outputs m; Errors := Errors m; StdinSent := StdinSent m |}.

Definition set_stdin (m : MockRunner) (stdin : string) : MockRunner :=
  {| CalledCommands := CalledCommands m; Outputs := Outputs m;
     Errors := Errors m; StdinSent := stdin |}.

#[global] Instance MockRunner_CommandRunner : CommandRunner MockRunner := {|
  Run m name args := (record_call m name args, Errors m !! name);
  Output m name args :=
    (record_call m name args,
     (default EmptyString (Outputs m !! name), Errors m !! name));
  RunWithStdin m stdin name args :=
    (record_call (set_stdin m stdin) name args,
     (default EmptyString (Outputs m !! name), Errors m !! name))
|}.

End runner.

(** ** Decision executor ([ExecuteDecision], lines 321-346) *)

Module strconv.
(** [%d] of an [int]. *)
Definition Itoa (n : Z) : string :=
  DecimalString.NilZero.string_of_int (Z.to_int n).
End strconv.

Section Executor.

Context {W : Type} {R : runner.CommandRunner W}.

(** One call of [CommandRunner.Run("td", args...)]; a failure is logged.
    The state is the world and the log written so far. *)
Definition runTd (st : W * list string) (args : list string) (failure : string)
  : W * list string :=
  let '(w, logs) := st in
  match runner.Run w "td" args with
  | (w', Some err) => (w', logs ++ [failure +:+ ": " +:+ err])
  | (w', None) => (w', logs)
  end.

Definition ExecuteDecision (w : W) (decision : Decision.t) : W * list string :=
  let id := Decision.TaskID decision in
  let action := Decision.Action decision in
  if String.eqb action "skip" then (w, [])
  else if String.eqb action "reprioritize" then
    match Decision.Priority decision with
    | Some p =>
        runTd (w, []) ["task"; "update"; id; "--priority"; "p" +:+ strconv.Itoa p]
          ("Failed to reprioritize task " +:+ id)
    | None => (w, [])
    end
  else if String.eqb action "recontextualize" then
    match Decision.NewContent decision with
    | Some c =>
        runTd (w, []) ["task"; "update"; id; "--content"; c]
          ("Failed to recontextualize task " +:+ id)
    | None => (w, [])
    end
  else if String.eqb action "decompose" then
    fold_left
      (fun st subtask =>
         runTd st ["task"; "add"; subtask; "--parent"; id]
           ("Failed to add subtask to " +:+ id))
      (Decision.Subtasks decision) (w, [])
  else if String.eqb action "ice-box" then
    (w, ["Ice-boxing task " +:+ id +:+ " (implement project move)"])
  else (w, []).

End Executor.

(** ** Parallel dispatcher ([ProcessTasksParallel], lines 144-170)

    The goroutines of the first phase as an interleaving transition system.
    A step is one operation of one thread: of the calling goroutine (the
    loop at line 149, then the [range] loop at line 166), of one of the
    workers started at line 152, or of the goroutine that closes [results]
    (line 160).  Channels are their buffers: a send on [sem] is enabled only
    while the buffer holds fewer than [maxConcurrency] tokens, a receive only
    while it holds one. *)

Module Dispatcher.

(** Where a worker stands in the body of lines 152-157. *)
Inductive phase :=
| Started                      (* spawned; [ProcessTask] not yet entered *)
| Calling                      (* inside [ProcessTask]: the invocation is outstanding *)
| Publishing (d : Decision.t)  (* about to send on [results] *)
| Releasing                    (* returning: the deferred [<-sem] is next *)
| Finishing                    (* slot released: the deferred [wg.Done()] is next *)
| Exited.

(** Where the calling goroutine stands. *)
Inductive main_pc :=
| Loop (rest : list Task)                 (* at the head of the [for] loop *)
| Acquire (t : Task) (rest : list Task)   (* after [wg.Add(1)], at [sem <- struct{}{}] *)
| Spawn (t : Task) (rest : list Task)     (* slot taken, at the [go] statement *)
| Collect                                 (* in the [range results] loop *)
| Done.                                   (* returned *)

Record state := {
  pc : main_pc;
  sem : nat;                          (* tokens in the buffer of [sem] *)
  wg : nat;                           (* counter of the wait group *)
  workers : list (Task * phase);
  results : list Decision.t;          (* buffer of [results] *)
  closed : bool;                      (* [close(results)] has run *)
  decisions : list Decision.t         (* collected so far *)
}.

Definition init (tasks : list Task) : state :=
  {| pc := Loop tasks; sem := 0; wg := 0; workers := []; results := [];
     closed := false; decisions := [] |}.

Definition with_pc (s : state) (p : main_pc) : state :=
  {| pc := p; sem := sem s; wg := wg s; workers := workers s;
     results := results s; closed := closed s; decisions := decisions s |}.

Definition with_workers (s : state) (ws : list (Task * phase)) : state :=
  {| pc := pc s; sem := sem s; wg := wg s; workers := ws;
     results := results s; closed := closed s; decisions := decisions s |}.

Section Steps.

Variable maxConcurrency : nat.

Inductive step : state -> state -> Prop :=
| step_add s t rest :                       (* line 150 *)
    pc s = Loop (t :: rest) ->
    step s {| pc := Acquire t rest; sem := sem s; wg := S (wg s);
              workers := workers s; results := results s;
              closed := closed s; decisions := decisions s |}
| step_acquire s t rest :                   (* line 151 *)
    pc s = Acquire t rest ->
    (sem s < maxConcurrency)%nat ->
    step s {| pc := Spawn t rest; sem := S (sem s); wg := wg s;
              workers := workers s; results := results s;
              closed := closed s; decisions := decisions s |}
| step_go s t rest :                        (* line 152 *)
    pc s = Spawn t rest ->
    step s {| pc := Loop rest; sem := sem s; wg := wg s;
              workers := workers s ++ [(t, Started)]; results := results s;
              closed := closed s; decisions := decisions s |}
| step_loop_end s :                         (* lines 160-166 *)
    pc s = Loop [] ->
    step s (with_pc s Collect)
| step_call s ws1 t ws2 :                   (* line 155, entry *)
    workers s = ws1 ++ (t, Started) :: ws2 ->
    step s (with_workers s (ws1 ++ (t, Calling) :: ws2))
| step_return s ws1 t ws2 d :               (* line 155, return *)
    workers s = ws1 ++ (t, Calling) :: ws2 ->
    step s (with_workers s (ws1 ++ (t, Publishing d) :: ws2))
| step_publish s ws1 t ws2 d :              (* line 156 *)
    workers s = ws1 ++ (t, Publishing d) :: ws2 ->
    step s {| pc := pc s; sem := sem s; wg := wg s;
              workers := ws1 ++ (t, Releasing) :: ws2;
              results := results s ++ [d];
              closed := closed s; decisions := decisions s |}
| step_release s ws1 t ws2 n :              (* line 154 *)
    workers s = ws1 ++ (t, Releasing) :: ws2 ->
    sem s = S n ->
    step s {| pc := pc s; sem := n; wg := wg s;
              workers := ws1 ++ (t, Finishing) :: ws2;
              results := results s;
              closed := closed s; decisions := decisions s |}
| step_done s ws1 t ws2 :                   (* line 153 *)
    workers s = ws1 ++ (t, Finishing) :: ws2 ->
    step s {| pc := pc s; sem := sem s; wg := Nat.pred (wg s);
              workers := ws1 ++ (t, Exited) :: ws2;
              results := results s;
              closed := closed s; decisions := decisions s |}
| step_close s :                            (* lines 161-162 *)
    pc s = Collect ->
    wg s = 0%nat ->
    closed s = false ->
    step s {| pc := pc s; sem := sem s; wg := wg s; workers := workers s;
              results := results s; closed := true;
              decisions := decisions s |}
| step_collect s d ds :                     (* lines 166-167 *)
    pc s = Collect ->
    results s = d :: ds ->
    step s {| pc := pc s; sem := sem s; wg := wg s; workers := workers s;
              results := ds; closed := closed s;
              decisions := decisions s ++ [d] |}
| step_finish s :                           (* line 169 *)
    pc s = Collect ->
    results s = [] ->
    closed s = true ->
    step s (with_pc s Done).

(** The states of the executions that start with [tasks]. *)
Inductive reachable (tasks : list Task) : state -> Prop :=
| reach_init : reachable tasks (init tasks)
| reach_step s s' : reachable tasks s -> step s s' -> reachable tasks s'.

End Steps.

(** A worker holds a slot from its start to the deferred receive. *)
Definition holds_slot (ph : phase) : bool :=
  match ph with
  | Started | Calling | Publishing _ | Releasing => true
  | Finishing | Exited => false
  end.

Definition is_calling (ph : phase) : bool :=
  match ph with
  | Calling => true
  | _ => false
  end.

Definition count (f : phase -> bool) (ws : list (Task * phase)) : nat :=
  length (List.filter (fun w => f (snd w)) ws).

(** Tasks that have acquired a slot and not yet released it: the workers
    that hold one, and the task the loop has sent for but not yet spawned. *)
Definition slot_holders (s : state) : nat :=
  (match pc s with Spawn _ _ => 1 | _ => 0 end + count holds_slot (workers s))%nat.

(** Reasoning-engine invocations that are outstanding. *)
Definition outstanding (s : state) : nat := count is_calling (workers s).

End Dispatcher.

(** ** The command line of the orchestrator ([main], package [flag]) *)

Module flag.

Record Flags := {
  contextFile : string;
  dryRun : bool;
  maxConcurrency : Z
}.

(** The three [flag.String], [flag.Bool] and [flag.Int] declarations of
    [main], with their default values. *)
Definition defaults : Flags :=
  {| contextFile := "logs/inertia-context-2026-02-22.json";
     dryRun := false;
     maxConcurrency := 10 |}.

(** [strconv.ParseBool] *)
Definition ParseBool (s : string) : option bool :=
  if existsb (String.eqb s) ["1"; "t"; "T"; "TRUE"; "true"; "True"] then Some true
  else if existsb (String.eqb s) ["0"; "f"; "F"; "FALSE"; "false"; "False"]
  then Some false
  else None.

(** The name of a flag argument and the value attached by [=], if any. *)
Fixpoint split_eq (name : string) : string * option string :=
  match name with
  | EmptyString => (EmptyString, None)
  | String c r =>
      if Ascii.eqb c "=" then (EmptyString, Some r)
      else let '(n, v) := split_eq r in (String c n, v)
  end.

(** What follows the one or two minus signs of an argument of at least two
    bytes that starts with a minus sign. *)
Definition flag_body (s : string) : option string :=
  match s with
  | String "-"%char (String "-"%char r) => Some r
  | String "-"%char (String c r) => Some (String c r)
  | _ => None
  end.

Section Parse.

(** [strconv.ParseInt(s, 0, 64)], the reading of an integer flag. *)
Variable ParseInt : string -> option Z.

(** [flag.Parse] under [ExitOnError]: the flags as set by the arguments, or
    the status the process exits with. *)
Fixpoint Parse (args : list string) (f : Flags) : Flags + Z :=
  match args with
  | [] => inl f
  | s :: rest =>
      match flag_body s with
      | None => inl f                       (* the first non-flag argument *)
      | Some body =>
          if String.eqb s "--" then inl f   (* the terminator *)
          else if String.prefix "-" body || String.prefix "=" body then inr 2
          else
            let '(name, value) := split_eq body in
            if String.eqb name "context" then
              match value, rest with
              | Some v, _ =>
                  Parse rest {| contextFile := v; dryRun := dryRun f;
                                maxConcurrency := maxConcurrency f |}
              | None, v :: rest' =>
                  Parse rest' {| contextFile := v; dryRun := dryRun f;
                                 maxConcurrency := maxConcurrency f |}
              | None, [] => inr 2
              end
            else if String.eqb name "dry-run" then
              match value with
              | Some v =>
                  match ParseBool v with
                  | Some b =>
                      Parse rest {| contextFile := contextFile f; dryRun := b;
                                    maxConcurrency := maxConcurrency f |}
                  | None => inr 2
                  end
              | None =>
                  Parse rest {| contextFile := contextFile f; dryRun := true;
                                maxConcurrency := maxConcurrency f |}
              end
            else if String.eqb name "concurrency" then
              match value, rest with
              | Some v, _ =>
                  match ParseInt v with
                  | Some n =>
                      Parse rest {| contextFile := contextFile f; dryRun := dryRun f;
                                    maxConcurrency := n |}
                  | None => inr 2
                  end
              | None, v :: rest' =>
                  match ParseInt v with
                  | Some n =>
                      Parse rest' {| contextFile := contextFile f; dryRun := dryRun f;
                                     maxConcurrency := n |}
                  | None => inr 2
                  end
              | None, [] => inr 2
              end
            else if String.eqb name "help" || String.eqb name "h" then inr 0
            else inr 2
      end
  end.

End Parse.

(** An argument that names the context option. *)
Definition names_context (s : string) : bool :=
  match flag_body s with
  | Some body => String.eqb (fst (split_eq body)) "context"
  | None => false
  end.

End flag.

(** The start of [main]: the flags are parsed and the context is loaded from
    the path the [context] flag holds. *)
Inductive startup :=
| Exits (status : Z)
| LoadsContext (path : string).

Definition main_startup (ParseInt : string -> option Z) (args : list string) : startup :=
  match flag.Parse ParseInt args flag.defaults with
  | inr status => Exits status
  | inl f => LoadsContext (flag.contextFile f)
  end.

(** Decimal integers, for the examples. *)
Definition ParseIntDecimal (s : string) : option Z :=
  match json.take_digits s 0%N 0%nat with
  | (n, S _, EmptyString) => Some (Z.of_N n)
  | _ => None
  end.

(** ** Notions the properties are stated with *)

(** [sub] occurs in [s]: the specification's "appears as a substring". *)
Definition is_substring (sub s : string) : Prop :=
  exists pre post, s = pre +:+ sub +:+ post.

(** The payload the parser hands to the decoder: the bytes from the first
    opening brace to the last closing brace. *)
Definition payload_of (response : string) : option string :=
  slice response (strings.Index response "{") (strings.LastIndex response "}" + 1).

(** The invariant of the dispatcher: the tokens in [sem] are the slots
    held, and they fit the capacity. *)
Definition slots_accounted (maxConcurrency : nat) (s : Dispatcher.state) : Prop :=
  Dispatcher.sem s = Dispatcher.slot_holders s
  /\ (Dispatcher.sem s <= maxConcurrency)%nat.


(** Line 202 on a duration [d]. *)
Definition age_of_duration (d : Z) : Z :=
  float64.to_int (float64.div (time.Hours d) (float64.of_int 24)).



(** ** Example data *)

(** Double quotes of JSON texts are written as single quotes in the examples. *)
Fixpoint dq (s : string) : string :=
  match s with
  | EmptyString => EmptyString
  | String c r => String (if Ascii.eqb c "'" then "034"%char else c) (dq r)
  end.

Definition mkTask (id content description : string) (parent : option string)
  (addedAt : Z) : Task :=
  {| ID := id; Content := content; Description := description; Priority := 1;
     ParentID := parent; AddedAt := addedAt; UpdatedAt := addedAt;
     Labels := []; ProjectID := EmptyString |}.

Definition mkEntity (name span : string) : Entity :=
  {| Name := name; Context := EmptyString; Sources := []; SpanYears := span;
     Status := EmptyString; Note := EmptyString; EmotionalValence := EmptyString |}.

Definition mkContext (people projects concepts : list Entity) : InertiaContext.t :=
  {| InertiaContext.Date := "2026-02-22";
     InertiaContext.Gazetteer :=
       {| People := people; Projects := projects; Places := [];
          Concepts := concepts |};
     InertiaContext.State :=
       {| Energy := "high"; Mood := "inspired"; Environment := "home";
          WorkVolatility := "low" |};
     InertiaContext.Intentions := {| Explicit := []; Implicit := [] |} |}.

Definition exTask : Task :=
  mkTask "1" "Finish journaling entry" "Use the new app" None 0.

Definition nameless : Entity := mkEntity "" "".

Definition exContext : InertiaContext.t :=
  mkContext [mkEntity "Ada Lovelace" ""; nameless]
            [mkEntity "New App" ""; nameless]
            [mkEntity "Journaling" "10"; mkEntity "Coding" "5";
             mkEntity "Morning Journaling Ritual" "0.4"; nameless].

Definition emptyMock : runner.MockRunner :=
  {| runner.CalledCommands := []; runner.Outputs := ∅; runner.Errors := ∅;
     runner.StdinSent := EmptyString |}.

Definition reprioritize123 : Decision.t :=
  {| Decision.TaskID := "123"; Decision.Action := "reprioritize";
     Decision.Priority := Some 2; Decision.NewContent := None;
     Decision.Subtasks := []; Decision.Reasoning := EmptyString;
     Decision.InertiaScore := float64.zero |}.

(** The response of the test suite, prose around the object. *)
Definition exResponse : string :=
  dq "Some chatter {'action': 'decompose', 'subtasks': ['a', 'b'], 'reasoning': 'x'} bye".

Definition exDecision : Decision.t :=
  {| Decision.TaskID := "123"; Decision.Action := "decompose";
     Decision.Priority := None; Decision.NewContent := None;
     Decision.Subtasks := ["a"; "b"]; Decision.Reasoning := "x";
     Decision.InertiaScore := float64.zero |}.

(** Two tasks under a bound of one: the first worker is inside its call
    while the loop waits at the semaphore for the second. *)
Definition exTask2 : Task := mkTask "2" "Plan the week" "" None 0.

Definition exBusy : Dispatcher.state :=
  {| Dispatcher.pc := Dispatcher.Acquire exTask2 [];
     Dispatcher.sem := 1; Dispatcher.wg := 2;
     Dispatcher.workers := [(exTask, Dispatcher.Calling)];
     Dispatcher.results := []; Dispatcher.closed := false;
     Dispatcher.decisions := [] |}.

(** A gazetteer whose only concept has a negative span, and a task that
    matches it. *)
Definition debtConcept : Entity := mkEntity "Debt" "-3".

Definition debtContext : InertiaContext.t :=
  mkContext [mkEntity "Ada Lovelace" "40"] [mkEntity "Pay debt" "7"] [debtConcept].

Definition debtTask : Task := mkTask "9" "Pay debt" "" None 0.



(** ** Decision prompt ([BuildDecisionPrompt], lines 236-278) *)

Module fmt.

(** The integer nearest to [m * 2^e], a tie going to the even one: the
    rounding of [strconv.FormatFloat] to a fixed number of digits, which
    works on the exact decimal expansion. *)
Definition round_half_even (m : positive) (e : Z) : Z :=
  match e with
  | Zneg p =>
      let d := 2 ^ Z.pos p in
      let q := Z.pos m / d in
      match Z.compare (2 * (Z.pos m mod d)) d with
      | Lt => q
      | Gt => q + 1
      | Eq => if Z.even q then q else q + 1
      end
  | _ => Z.pos m * 2 ^ e
  end.

(** The verb [%.0f] on a [float64]: no fractional digits and no decimal
    point; the sign of a negative value is kept where the digits round to
    zero. *)
Definition Float0 (x : spec_float) : string :=
  match x with
  | S754_zero s => (if s then "-" else "") +:+ "0"
  | S754_infinity s => if s then "-Inf" else "+Inf"
  | S754_nan => "NaN"
  | S754_finite s m e =>
      (if s then "-" else "") +:+ strconv.Itoa (round_half_even m e)
  end.

End fmt.

(** The line feed that ends the lines of the prompt. *)
Definition nl : string := String "010"%char EmptyString.

(** Line 249: ["- %s (%.0f years): %s\n"]. *)
Definition conceptLine (c : Entity) : string :=
  "- " +:+ Name c +:+ " (" +:+ fmt.Float0 (GetSpanYears c) +:+ " years): "
  +:+ Context c +:+ nl.

(** Line 257: ["- %s: %s\n"]. *)
Definition projectLine (p : Entity) : string :=
  "- " +:+ Name p +:+ ": " +:+ Context p +:+ nl.

(** Lines 262-276: the fixed text that ends every prompt. *)
Definition instructions : string :=
  "Based on this context, decide ONE action for this task:" +:+ nl
  +:+ dq "1. 'skip' - no action needed" +:+ nl
  +:+ dq "2. 'decompose' - break into subtasks (if >14 days old and stale)" +:+ nl
  +:+ dq "3. 'ice-box' - move to ice-box (if >30 days old and low historical alignment)"
  +:+ nl
  +:+ dq "4. 'reprioritize' - change priority based on inertia score" +:+ nl
  +:+ dq "5. 'recontextualize' - rewrite task to be more atomic/specific" +:+ nl +:+ nl
  +:+ "Respond with JSON only:" +:+ nl
  +:+ "{" +:+ nl
  +:+ dq "  'action': 'skip|decompose|ice-box|reprioritize|recontextualize'," +:+ nl
  +:+ dq "  'priority': 1-4 (if reprioritizing)," +:+ nl
  +:+ dq "  'new_content': '...' (if recontextualizing)," +:+ nl
  +:+ dq "  'subtasks': ['...', '...'], (if decomposing)," +:+ nl
  +:+ dq "  'reasoning': 'brief explanation'," +:+ nl
  +:+ dq "  'inertia_score': 0-10 (historical_weight * 0.4 + state_alignment * 0.3 + environment * 0.3)"
  +:+ nl
  +:+ "}".

(** The writes to the [strings.Builder], in order. *)
Definition BuildDecisionPrompt (taskCtx : TaskContext.t) : string :=
  let task := TaskContext.Task taskCtx in
  let state := TaskContext.State taskCtx in
  let sb := EmptyString in
  let sb := sb +:+ ("Task: " +:+ Content task +:+ nl) in
  let sb := sb +:+ ("Created: " +:+ strconv.Itoa (TaskContext.AgeDays taskCtx)
                    +:+ " days ago" +:+ nl) in
  let sb := sb +:+ ("Current priority: p" +:+ strconv.Itoa (Priority task)
                    +:+ nl +:+ nl) in
  let sb := sb +:+ ("Current state:" +:+ nl) in
  let sb := sb +:+ ("- Energy: " +:+ Energy state +:+ nl) in
  let sb := sb +:+ ("- Mood: " +:+ Mood state +:+ nl) in
  let sb := sb +:+ ("- Environment: " +:+ Environment state +:+ nl +:+ nl) in
  let sb :=
    match TaskContext.RelatedConcepts taskCtx with
    | [] => sb
    | concepts =>
        let sb := sb +:+ ("Related concepts from diary history:" +:+ nl) in
        let sb := fold_left (fun sb c => sb +:+ conceptLine c) concepts sb in
        sb +:+ nl
    end in
  let sb :=
    match TaskContext.RelatedProjects taskCtx with
    | [] => sb
    | projects =>
        let sb := sb +:+ ("Related projects:" +:+ nl) in
        let sb := fold_left (fun sb p => sb +:+ projectLine p) projects sb in
        sb +:+ nl
    end in
  sb +:+ instructions.

(** ** Reasoning-engine call ([CallAgentForDecision], lines 222-234, and
    [ProcessTask], lines 172-175)

    A call gives the world after it, the lines it logged, and the decision
    it returns or the panic it ends in. *)

Section Agent.

Context {W : Type} {R : runner.CommandRunner W}.

Definition CallAgentForDecision (w : W) (taskCtx : TaskContext.t)
  : W * list string * outcome Decision.t :=
  let prompt := BuildDecisionPrompt taskCtx in
  let id := ID (TaskContext.Task taskCtx) in
  match runner.RunWithStdin w prompt "openclaw" ["chat"] with
  | (w', (_, Some err)) =>
      (w', ["LLM call failed for task " +:+ id +:+ ": " +:+ err],
       Returned (skipDecision id ("LLM call failed: " +:+ err)))
  | (w', (output, None)) => (w', [], ParseDecisionResponse output id)
  end.

Variable ToLower : string -> string.

Definition ProcessTask (now : Z) (w : W) (task : Task) (context : InertiaContext.t)
  : W * list string * outcome Decision.t :=
  let taskCtx := ContextualizeTask ToLower now task context in
  CallAgentForDecision w taskCtx.

End Agent.

(** ** Further notions the properties are stated with *)

(** The commands a decision stands for: what the executor hands to the
    runner, in order. *)
Definition commandsOf (d : Decision.t) : list (list string) :=
  let id := Decision.TaskID d in
  if String.eqb (Decision.Action d) "reprioritize" then
    match Decision.Priority d with
    | Some p => [["td"; "task"; "update"; id; "--priority"; "p" +:+ strconv.Itoa p]]
    | None => []
    end
  else if String.eqb (Decision.Action d) "recontextualize" then
    match Decision.NewContent d with
    | Some c => [["td"; "task"; "update"; id; "--content"; c]]
    | None => []
    end
  else if String.eqb (Decision.Action d) "decompose" then
    map (fun subtask => ["td"; "task"; "add"; subtask; "--parent"; id])
        (Decision.Subtasks d)
  else [].

(** The layout of a prompt: the seven lines on the task and the state, and
    a titled block of lines that is left out when there is no line. *)
Definition promptHeader (taskCtx : TaskContext.t) : string :=
  let task := TaskContext.Task taskCtx in
  let state := TaskContext.State taskCtx in
  "Task: " +:+ Content task +:+ nl
  +:+ "Created: " +:+ strconv.Itoa (TaskContext.AgeDays taskCtx) +:+ " days ago" +:+ nl
  +:+ "Current priority: p" +:+ strconv.Itoa (Priority task) +:+ nl +:+ nl
  +:+ "Current state:" +:+ nl
  +:+ "- Energy: " +:+ Energy state +:+ nl
  +:+ "- Mood: " +:+ Mood state +:+ nl
  +:+ "- Environment: " +:+ Environment state +:+ nl +:+ nl.

Definition concat_lines (lines : list string) : string :=
  fold_right String.append EmptyString lines.

Definition promptSection (title : string) (lines : list string) : string :=
  match lines with
  | [] => EmptyString
  | _ => title +:+ nl +:+ concat_lines lines +:+ nl
  end.

(** The world after the commands [cmds], each a name and its arguments, have
    been handed to the runner one after the other, whatever each call
    reports. *)
Definition runCommands {W : Type} {R : runner.CommandRunner W} (w : W)
    (cmds : list (list string)) : W :=
  fold_left (fun w c => fst (runner.Run w (hd EmptyString c) (tl c))) cmds w.

(** A [float64] that is a number: neither NaN nor an infinity. *)
Definition is_number (x : spec_float) : bool :=
  match x with
  | S754_zero _ | S754_finite _ _ _ => true
  | S754_infinity _ | S754_nan => false
  end.

(** A decimal numeral: an optional minus sign, then digits, at least one. *)
Definition is_digit (c : ascii) : bool :=
  ((48 <=? nat_of_ascii c) && (nat_of_ascii c <=? 57))%nat.

Fixpoint all_digits (s : string) : bool :=
  match s with
  | EmptyString => true
  | String c r => is_digit c && all_digits r
  end.

Definition is_numeral (s : string) : bool :=
  match s with
  | EmptyString => false
  | String "-"%char (String c r) => all_digits (String c r)
  | String c r => all_digits (String c r)
  end.

(** An argument that names the flag [name]. *)
Definition names_flag (name s : string) : bool :=
  match flag.flag_body s with
  | Some body => String.eqb (fst (flag.split_eq body)) name
  | None => false
  end.

(** The phases of a worker that has sent its decision, and of one that has
    not yet run its deferred [wg.Done()]. *)
Definition has_published (ph : Dispatcher.phase) : bool :=
  match ph with
  | Dispatcher.Releasing | Dispatcher.Finishing | Dispatcher.Exited => true
  | _ => false
  end.

Definition not_done (ph : Dispatcher.phase) : bool :=
  match ph with
  | Dispatcher.Exited => false
  | _ => true
  end.

(** The tasks the loop of line 149 has not yet handed to a worker, and
    whether it stands between [wg.Add(1)] and the [go] statement. *)
Definition pending (p : Dispatcher.main_pc) : nat :=
  match p with
  | Dispatcher.Loop rest => length rest
  | Dispatcher.Acquire _ rest | Dispatcher.Spawn _ rest => S (length rest)
  | Dispatcher.Collect | Dispatcher.Done => 0
  end.

Definition announced (p : Dispatcher.main_pc) : nat :=
  match p with
  | Dispatcher.Acquire _ _ | Dispatcher.Spawn _ _ => 1
  | _ => 0
  end.

(** The bookkeeping of the dispatcher: every task is pending or has a
    worker; the wait group counts the workers that have not finished and the
    task announced; every decision sent is in the buffer or collected; the
    channel is closed only once the loop is over and every worker has
    finished; the caller returns only from the closed and drained channel. *)
Definition dispatcher_accounts (tasks : list Task) (s : Dispatcher.state) : Prop :=
  (pending (Dispatcher.pc s) + length (Dispatcher.workers s) = length tasks)%nat
  /\ Dispatcher.wg s
     = (announced (Dispatcher.pc s)
        + Dispatcher.count not_done (Dispatcher.workers s))%nat
  /\ (length (Dispatcher.results s) + length (Dispatcher.decisions s)
      = Dispatcher.count has_published (Dispatcher.workers s))%nat
  /\ (Dispatcher.closed s = true ->
      pending (Dispatcher.pc s) = 0%nat
      /\ Dispatcher.count not_done (Dispatcher.workers s) = 0%nat
      /\ Dispatcher.pc s <> Dispatcher.Loop [])
  /\ (Dispatcher.pc s = Dispatcher.Done ->
      Dispatcher.closed s = true /\ Dispatcher.results s = []).

(** Example data of the further properties. *)
Definition iceBox7 : Decision.t :=
  {| Decision.TaskID := "7"; Decision.Action := "ice-box";
     Decision.Priority := Some 1; Decision.NewContent := Some "x";
     Decision.Subtasks := ["a"]; Decision.Reasoning := EmptyString;
     Decision.InertiaScore := float64.zero |}.

Definition failingMock (name err : string) : runner.MockRunner :=
  {| runner.CalledCommands := []; runner.Outputs := ∅;
     runner.Errors := {[ name := err ]}; runner.StdinSent := EmptyString |}.

Definition answeringMock (output : string) : runner.MockRunner :=
  {| runner.CalledCommands := []; runner.Outputs := {[ "openclaw" := output ]};
     runner.Errors := ∅; runner.StdinSent := EmptyString |}.

Definition exTaskContext : TaskContext.t :=
  ContextualizeTask strings.ToLowerASCII 0 exTask exContext.

(** The example snapshot with its concepts in another order, one of them
    listed twice. *)
Definition exContextShuffled : InertiaContext.t :=
  mkContext []
            [mkEntity "New App" ""]
            [nameless; mkEntity "Morning Journaling Ritual" "0.4";
             mkEntity "Coding" "5"; mkEntity "Journaling" "10";
             mkEntity "Coding" "5"].

Definition decompose9 : Decision.t :=
  {| Decision.TaskID := "9"; Decision.Action := "decompose";
     Decision.Priority := None; Decision.NewContent := None;
     Decision.Subtasks := ["Call the bank"; "Pay debt"];
     Decision.Reasoning := EmptyString; Decision.InertiaScore := float64.zero |}.

(** A runner whose reasoning engine fails after printing a reply that the
    parser could not cut. *)
Definition brokenEngine : runner.MockRunner :=
  {| runner.CalledCommands := [];
     runner.Outputs := {[ "openclaw" := "} {" ]};
     runner.Errors := {[ "openclaw" := "exit status 1" ]};
     runner.StdinSent := EmptyString |}.

(** A task context that differs from the example's in what a prompt does
    not show. *)
Definition exTaskContextOther : TaskContext.t :=
  {| TaskContext.Task :=
       {| ID := "77"; Content := "Finish journaling entry";
          Description := "Another description"; Priority := 1;
          ParentID := Some "1"; AddedAt := 5; UpdatedAt := 6;
          Labels := ["x"]; ProjectID := "p" |};
     TaskContext.RelatedPeople := [mkEntity "Ada Lovelace" "40"];
     TaskContext.RelatedProjects :=
       [mkEntity "New App" "3"; mkEntity "" "1"];
     TaskContext.RelatedConcepts :=
       [mkEntity "Journaling" "10.4"; mkEntity "Morning Journaling Ritual" "0";
        mkEntity "" "0.5"];
     TaskContext.State :=
       {| Energy := "high"; Mood := "inspired"; Environment := "home";
          WorkVolatility := "extreme" |};
     TaskContext.AgeDays := 0;
     TaskContext.HistoricalWeight := float64.of_int 99 |}.

(** Two tasks under a bound of one: the first worker has sent its decision
    and holds its slot still; the loop waits for it with the second task. *)
Definition exPublished : Dispatcher.state :=
  {| Dispatcher.pc := Dispatcher.Acquire exTask2 [];
     Dispatcher.sem := 1; Dispatcher.wg := 2;
     Dispatcher.workers := [(exTask, Dispatcher.Releasing)];
     Dispatcher.results := [exDecision]; Dispatcher.closed := false;
     Dispatcher.decisions := [] |}.

(** The loop blocked at the semaphore of capacity zero. *)
Definition exStuck : Dispatcher.state :=
  {| Dispatcher.pc := Dispatcher.Acquire exTask [];
     Dispatcher.sem := 0; Dispatcher.wg := 1;
     Dispatcher.workers := []; Dispatcher.results := [];
     Dispatcher.closed := false; Dispatcher.decisions := [] |}.

(** The flags after [--context ctx.json]. *)
Definition exFlags : flag.Flags :=
  {| flag.contextFile := "ctx.json"; flag.dryRun := false;
     flag.maxConcurrency := 10 |}.

(** * Properties *)

(** ** Loops that append *)

(** The Go idiom [for _, x := range l { if p(x) { acc = append(acc, x) } }]
    is a filter in the order of [l]. *)
Lemma fold_append_filter {A : Type} (p : A -> bool) (l acc : list A) :
  fold_left (fun acc x => if p x then acc ++ [x] else acc) l acc
  = acc ++ List.filter p l.
Proof.
  revert acc; induction l as [|x l IH]; intros acc; simpl.
  - now rewrite app_nil_r.
  - rewrite IH. destruct (p x); [|reflexivity].
    now rewrite <- app_assoc.
Qed.

(** ** The JSON reader: fuel

    Every parser consumes at least one byte of what it accepts, so the
    recursion of [json.parse_value] is bounded by the length of the input:
    the fuel [json.parse] supplies is never what makes it fail. *)

Section JsonFuel.

Import json.

Lemma skip_ws_length (s : string) :
  (String.length (skip_ws s) <= String.length s)%nat.
Proof.
  induction s as [|c s IH]; simpl; [lia|].
  destruct (is_ws c); simpl; lia.
Qed.

Lemma head_is_length (c : ascii) (s r : string) :
  head_is c s = Some r -> String.length s = S (String.length r).
Proof.
  destruct s as [|d s]; simpl; [discriminate|].
  destruct (Ascii.eqb c d); [|discriminate]. now intros [= ->].
Qed.

Lemma strip_prefix_length (p : string) :
  forall s r, strip_prefix p s = Some r ->
              String.length s = (String.length p + String.length r)%nat.
Proof.
  induction p as [|a p IH]; intros s r; simpl.
  - now intros [= ->].
  - destruct s as [|b s]; [discriminate|].
    destruct (Ascii.eqb a b); [|discriminate].
    intros H. apply IH in H. simpl. lia.
Qed.

Lemma take_digits_length (s : string) :
  forall acc cnt m cnt' r,
    take_digits s acc cnt = (m, cnt', r) ->
    (String.length r + cnt' = String.length s + cnt)%nat.
Proof.
  induction s as [|c s IH]; intros acc cnt m cnt' r; simpl.
  - intros [= <- <- <-]. reflexivity.
  - destruct (digit_of c).
    + intros H. apply IH in H. lia.
    + intros [= <- <- <-]. reflexivity.
Qed.

Lemma prepend_length (u : string) (o : option (string * string)) t k :
  prepend u o = Some (t, k) -> exists t', o = Some (t', k).
Proof. destruct o as [[t' k']|]; simpl; [|discriminate]. intros [= _ ->]. eauto. Qed.

Lemma parse_string_length_aux (n : nat) :
  forall s t k, (String.length s <= n)%nat ->
                parse_string s = Some (t, k) ->
                (String.length k < String.length s)%nat.
Proof.
  induction n as [|n IH]; intros s t k Hn H.
  - destruct s; [discriminate|simpl in Hn; lia].
  - destruct s as [|c r]; [discriminate|].
    cbn [parse_string] in H. cbn [String.length] in *.
    repeat match type of H with
    | (if ?b then _ else _) = _ => destruct b
    | match ?x with EmptyString => _ | String _ _ => _ end = _ =>
        destruct x; cbn [String.length] in *
    | match ?x with Some _ => _ | None => _ end = _ => destruct x
    | None = Some _ => discriminate
    | Some _ = Some _ => injection H as <- <-; lia
    | prepend _ _ = Some _ =>
        apply prepend_length in H; destruct H as [t' H];
        apply IH in H; cbn [String.length] in *; lia
    end.
Qed.

Lemma parse_string_length (s t k : string) :
  parse_string s = Some (t, k) -> (String.length k < String.length s)%nat.
Proof. apply (parse_string_length_aux (String.length s)). lia. Qed.


Lemma parse_number_length (s r : string) (n : number) :
  parse_number s = Some (n, r) -> (String.length r < String.length s)%nat.
Proof.
  unfold parse_number.
  destruct (parse_sign s) as [neg s1] eqn:E0.
  assert (L0 : (String.length s1 <= String.length s)%nat).
  { unfold parse_sign in E0. destruct s as [|c s']; [now inversion E0|].
    destruct (Ascii.eqb c "-"); inversion E0; simpl; lia. }
  destruct (parse_int_part s1) as [[m s2]|] eqn:E1; [|discriminate].
  assert (L1 : (String.length s2 < String.length s1)%nat).
  { unfold parse_int_part in E1. destruct s1 as [|c s']; [discriminate|].
    destruct (Ascii.eqb c "0"); [inversion E1; simpl; lia|].
    destruct (take_digits (String c s') 0 0) as [[m0 cnt] r0] eqn:T.
    apply take_digits_length in T. destruct cnt; inversion E1; subst. lia. }
  destruct (parse_frac_part m s2) as [[[[m' fl] has_frac] s3]|] eqn:E2;
    [|discriminate].
  assert (L2 : (String.length s3 <= String.length s2)%nat).
  { unfold parse_frac_part in E2. destruct s2 as [|c s']; [now inversion E2|].
    destruct (Ascii.eqb c ".").
    - destruct (take_digits s' m 0) as [[m0 cnt] r0] eqn:T.
      apply take_digits_length in T. destruct cnt; inversion E2; subst.
      simpl. lia.
    - inversion E2. lia. }
  destruct (parse_exp_part s3) as [[[x has_exp] s4]|] eqn:E3; [|discriminate].
  assert (L3 : (String.length s4 <= String.length s3)%nat).
  { unfold parse_exp_part in E3. destruct s3 as [|c s']; [now inversion E3|].
    destruct (Ascii.eqb c "e" || Ascii.eqb c "E").
    - destruct (parse_exp_sign s') as [sgn r1] eqn:S1.
      assert (String.length r1 <= String.length s')%nat.
      { unfold parse_exp_sign in S1. destruct s' as [|d s'']; [now inversion S1|].
        destruct (Ascii.eqb d "+"); [inversion S1; simpl; lia|].
        destruct (Ascii.eqb d "-"); inversion S1; simpl; lia. }
      destruct (take_digits r1 0 0) as [[m0 cnt] r0] eqn:T.
      apply take_digits_length in T. destruct cnt; inversion E3; subst.
      simpl. lia.
    - inversion E3. lia. }
  intros [= _ <-]. lia.
Qed.

(** Every parser consumes input. *)
Lemma parse_value_consumes (fuel : nat) :
  (forall s v r, parse_value fuel s = Some (v, r) ->
                 (String.length r < String.length s)%nat)
  /\ (forall s vs r, parse_elements fuel s = Some (vs, r) ->
                     (String.length r < String.length s)%nat)
  /\ (forall s ms r, parse_members fuel s = Some (ms, r) ->
                     (String.length r < String.length s)%nat).
Proof.
  induction fuel as [|fuel [IHv [IHe IHm]]];
    [repeat split; intros; discriminate|].
  split; [|split].
  - intros s v r H. cbn [parse_value] in H.
    pose proof (skip_ws_length s) as L.
    destruct (head_is "{" (skip_ws s)) as [r0|] eqn:E1.
    { apply head_is_length in E1. pose proof (skip_ws_length r0) as L0.
      destruct (head_is "}" (skip_ws r0)) as [k|] eqn:E2.
      - apply head_is_length in E2. inversion H; subst. lia.
      - destruct (parse_members fuel r0) as [[ms k]|] eqn:E3; [|discriminate].
        apply IHm in E3. inversion H; subst. lia. }
    destruct (head_is "[" (skip_ws s)) as [r0|] eqn:E2.
    { apply head_is_length in E2. pose proof (skip_ws_length r0) as L0.
      destruct (head_is "]" (skip_ws r0)) as [k|] eqn:E3.
      - apply head_is_length in E3. inversion H; subst. lia.
      - destruct (parse_elements fuel r0) as [[vs k]|] eqn:E4; [|discriminate].
        apply IHe in E4. inversion H; subst. lia. }
    destruct (head_is "034" (skip_ws s)) as [r0|] eqn:E3.
    { apply head_is_length in E3.
      destruct (parse_string r0) as [[t k]|] eqn:E4; [|discriminate].
      apply parse_string_length in E4. inversion H; subst. lia. }
    destruct (strip_prefix "true" (skip_ws s)) as [k|] eqn:E4.
    { apply strip_prefix_length in E4. inversion H; subst. simpl in E4. lia. }
    destruct (strip_prefix "false" (skip_ws s)) as [k|] eqn:E5.
    { apply strip_prefix_length in E5. inversion H; subst. simpl in E5. lia. }
    destruct (strip_prefix "null" (skip_ws s)) as [k|] eqn:E6.
    { apply strip_prefix_length in E6. inversion H; subst. simpl in E6. lia. }
    destruct (parse_number (skip_ws s)) as [[n k]|] eqn:E7; [|discriminate].
    apply parse_number_length in E7. inversion H; subst. lia.
  - intros s vs r H. cbn [parse_elements] in H.
    destruct (parse_value fuel s) as [[v r0]|] eqn:E1; [|discriminate].
    apply IHv in E1. pose proof (skip_ws_length r0) as L.
    destruct (head_is "," (skip_ws r0)) as [r1|] eqn:E2.
    + apply head_is_length in E2.
      destruct (parse_elements fuel r1) as [[vs' k]|] eqn:E3; [|discriminate].
      apply IHe in E3. inversion H; subst. lia.
    + destruct (head_is "]" (skip_ws r0)) as [k|] eqn:E3; [|discriminate].
      apply head_is_length in E3. inversion H; subst. lia.
  - intros s ms r H. cbn [parse_members] in H.
    pose proof (skip_ws_length s) as L.
    destruct (head_is "034" (skip_ws s)) as [r0|] eqn:E1; [|discriminate].
    apply head_is_length in E1.
    destruct (parse_string r0) as [[key r1]|] eqn:E2; [|discriminate].
    apply parse_string_length in E2. pose proof (skip_ws_length r1) as L1.
    destruct (head_is ":" (skip_ws r1)) as [r2|] eqn:E3; [|discriminate].
    apply head_is_length in E3.
    destruct (parse_value fuel r2) as [[v r3]|] eqn:E4; [|discriminate].
    apply IHv in E4. pose proof (skip_ws_length r3) as L3.
    destruct (head_is "," (skip_ws r3)) as [r5|] eqn:E5.
    + apply head_is_length in E5.
      destruct (parse_members fuel r5) as [[ms' k]|] eqn:E6; [|discriminate].
      apply IHm in E6. inversion H; subst. lia.
    + destruct (head_is "}" (skip_ws r3)) as [k|] eqn:E6; [|discriminate].
      apply head_is_length in E6. inversion H; subst. lia.
Qed.

Lemma parse_elements_eq (fuel : nat) (s : string) :
  parse_elements (S fuel) s
  = match parse_value fuel s with
    | Some (v, r) =>
        match head_is "," (skip_ws r) with
        | Some r' =>
            match parse_elements fuel r' with
            | Some (vs, k) => Some (v :: vs, k)
            | None => None
            end
        | None =>
            match head_is "]" (skip_ws r) with
            | Some k => Some ([v], k)
            | None => None
            end
        end
    | None => None
    end.
Proof. reflexivity. Qed.

Lemma parse_members_eq (fuel : nat) (s : string) :
  parse_members (S fuel) s
  = match head_is "034" (skip_ws s) with
    | Some r =>
        match parse_string r with
        | Some (key, r1) =>
            match head_is ":" (skip_ws r1) with
            | Some r2 =>
                match parse_value fuel r2 with
                | Some (v, r3) =>
                    match head_is "," (skip_ws r3) with
                    | Some r5 =>
                        match parse_members fuel r5 with
                        | Some (ms, k) => Some ((key, v) :: ms, k)
                        | None => None
                        end
                    | None =>
                        match head_is "}" (skip_ws r3) with
                        | Some k => Some ([(key, v)], k)
                        | None => None
                        end
                    end
                | None => None
                end
            | None => None
            end
        | None => None
        end
    | None => None
    end.
Proof. reflexivity. Qed.

(** Beyond twice the length of the input, more fuel changes nothing. *)
Lemma parse_value_stable (fuel : nat) :
  (forall s, (2 * String.length s + 1 <= fuel)%nat ->
             parse_value (S fuel) s = parse_value fuel s)
  /\ (forall s, (2 * String.length s + 2 <= fuel)%nat ->
                parse_elements (S fuel) s = parse_elements fuel s)
  /\ (forall s, (2 * String.length s + 2 <= fuel)%nat ->
                parse_members (S fuel) s = parse_members fuel s).
Proof.
  induction fuel as [|fuel [IHv [IHe IHm]]];
    [repeat split; intros; lia|].
  split; [|split].
  - intros s Hs. cbn [parse_value].
    pose proof (skip_ws_length s) as L.
    destruct (head_is "{" (skip_ws s)) as [r0|] eqn:E1.
    { apply head_is_length in E1.
      destruct (head_is "}" (skip_ws r0)); [reflexivity|].
      rewrite IHm by lia. reflexivity. }
    destruct (head_is "[" (skip_ws s)) as [r0|] eqn:E2; [|reflexivity].
    apply head_is_length in E2.
    destruct (head_is "]" (skip_ws r0)); [reflexivity|].
    rewrite IHe by lia. reflexivity.
  - intros s Hs. rewrite (parse_elements_eq (S fuel)), (parse_elements_eq fuel).
    rewrite IHv by lia.
    destruct (parse_value fuel s) as [[v r0]|] eqn:E1; [|reflexivity].
    apply (proj1 (parse_value_consumes fuel)) in E1.
    pose proof (skip_ws_length r0) as L.
    destruct (head_is "," (skip_ws r0)) as [r1|] eqn:E2; [|reflexivity].
    apply head_is_length in E2.
    rewrite IHe by lia. reflexivity.
  - intros s Hs. rewrite (parse_members_eq (S fuel)), (parse_members_eq fuel).
    pose proof (skip_ws_length s) as L.
    destruct (head_is "034" (skip_ws s)) as [r0|] eqn:E1; [|reflexivity].
    apply head_is_length in E1.
    destruct (parse_string r0) as [[key r1]|] eqn:E2; [|reflexivity].
    apply parse_string_length in E2. pose proof (skip_ws_length r1) as L1.
    destruct (head_is ":" (skip_ws r1)) as [r2|] eqn:E3; [|reflexivity].
    apply head_is_length in E3.
    rewrite IHv by lia.
    destruct (parse_value fuel r2) as [[v r3]|] eqn:E4; [|reflexivity].
    apply (proj1 (parse_value_consumes fuel)) in E4.
    pose proof (skip_ws_length r3) as L3.
    destruct (head_is "," (skip_ws r3)) as [r5|] eqn:E5; [|reflexivity].
    apply head_is_length in E5.
    rewrite IHm by lia. reflexivity.
Qed.

(** The fuel [parse] gives is enough: any larger amount gives the same
    result. *)
Lemma parse_fuel_enough (data : string) (extra : nat) :
  parse_value (2 * String.length data + 2 + extra) data
  = parse_value (2 * String.length data + 2) data.
Proof.
  induction extra as [|extra IH]; [now rewrite Nat.add_0_r|].
  rewrite Nat.add_succ_r.
  rewrite (proj1 (parse_value_stable _)) by lia. exact IH.
Qed.

End JsonFuel.

(** ** Leaf filter *)

Lemma collect_from_lookup (tasks : list Task) (m : gmap string bool) (i : string) :
  map_index
    (fold_left
       (fun parentIDs task =>
          match ParentID task with
          | Some p => <[p := true]> parentIDs
          | None => parentIDs
          end) tasks m) i
  = map_index m i || is_parent_idb tasks i.
Proof.
  revert m; induction tasks as [|t tasks IH]; intros m; simpl.
  - now rewrite orb_false_r.
  - rewrite IH. destruct (ParentID t) as [p|]; simpl; [|reflexivity].
    unfold map_index. destruct (String.eqb_spec p i) as [->|Hne].
    + rewrite lookup_insert_eq. simpl. now rewrite orb_true_r.
    + rewrite lookup_insert_ne by assumption. reflexivity.
Qed.

Lemma collectParentIDs_lookup (tasks : list Task) (i : string) :
  map_index (collectParentIDs tasks) i = is_parent_idb tasks i.
Proof.
  unfold collectParentIDs. rewrite collect_from_lookup.
  unfold map_index. now rewrite lookup_empty.
Qed.

Lemma is_parent_idb_spec (tasks : list Task) (i : string) :
  is_parent_idb tasks i = true <-> is_parent_id tasks i.
Proof.
  unfold is_parent_idb, is_parent_id. rewrite existsb_exists.
  split; intros [u [Hin H]]; exists u; split; try assumption.
  - destruct (ParentID u) as [p|]; [|discriminate].
    apply String.eqb_eq in H. now subst.
  - rewrite H. apply String.eqb_refl.
Qed.

(** C3. The leaf filter returns the input list restricted to the tasks whose
    identifier is no task's parent identifier: it equals the filter of the
    input by that test, so order and multiplicity are those of the input,
    and a task is returned exactly when it is in the input and outside the
    parent-id set. *)
Theorem FilterLeafNodes_spec (tasks : list Task) :
  FilterLeafNodes tasks = leaves_spec tasks
  /\ forall t, In t (FilterLeafNodes tasks)
               <-> In t tasks /\ ~ is_parent_id tasks (ID t).
Proof.
  assert (E : FilterLeafNodes tasks = leaves_spec tasks).
  { unfold FilterLeafNodes, leaves_spec.
    rewrite (fold_append_filter
               (fun task => negb (map_index (collectParentIDs tasks) (ID task)))).
    simpl. apply filter_ext. intros t.
    now rewrite collectParentIDs_lookup. }
  split; [exact E|].
  intros t. rewrite E. unfold leaves_spec. rewrite filter_In.
  rewrite negb_true_iff, <- not_true_iff_false, is_parent_idb_spec.
  reflexivity.
Qed.

Example FilterLeafNodes_example :
  FilterLeafNodes
    [mkTask "p1" "Parent" "" None 0; mkTask "c1" "Child" "" (Some "p1") 0;
     mkTask "l1" "Lone Task" "" None 0]
  = [mkTask "c1" "Child" "" (Some "p1") 0; mkTask "l1" "Lone Task" "" None 0].
Proof. vm_compute. reflexivity. Qed.

(** ** Substring search *)

Lemma prefix_spec (p s : string) :
  String.prefix p s = true <-> exists post, s = p +:+ post.
Proof.
  revert s; induction p as [|a p IH]; intros s.
  - destruct s; simpl; split; eauto.
  - destruct s as [|b s]; simpl.
    + split; [discriminate|]. intros [post H]. discriminate.
    + destruct (Ascii.ascii_dec a b) as [->|Hne].
      * rewrite IH. split; intros [post H]; exists post.
        -- now rewrite H.
        -- now inversion H.
      * split; [discriminate|]. intros [post H]. inversion H. congruence.
Qed.

Lemma prefix_empty (s : string) : String.prefix EmptyString s = true.
Proof. destruct s; reflexivity. Qed.

Lemma IndexFrom_range (s sub : string) (i : Z) :
  strings.IndexFrom i s sub = -1 \/ i <= strings.IndexFrom i s sub.
Proof.
  revert i; induction s as [|c s IH]; intros i; cbn [strings.IndexFrom].
  - destruct (String.prefix sub EmptyString); lia.
  - destruct (String.prefix sub (String c s)); [lia|].
    destruct (IH (i + 1)); lia.
Qed.

Lemma IndexFrom_found (s sub : string) (i : Z) :
  0 <= i ->
  (0 <=? strings.IndexFrom i s sub) = true <-> is_substring sub s.
Proof.
  revert i; induction s as [|c s IH]; intros i Hi; cbn [strings.IndexFrom].
  - destruct (String.prefix sub EmptyString) eqn:P.
    + split; [|intros _; apply Z.leb_le; lia].
      intros _. apply prefix_spec in P. destruct P as [post P].
      exists EmptyString, post. exact P.
    + split; [intros H; apply Z.leb_le in H; lia|].
      intros [pre [post H]]. destruct pre; [|discriminate].
      simpl in H. assert (String.prefix sub EmptyString = true) as Q
        by (apply prefix_spec; eauto).
      congruence.
  - destruct (String.prefix sub (String c s)) eqn:P.
    + split; [|intros _; apply Z.leb_le; lia].
      intros _. apply prefix_spec in P. destruct P as [post P].
      exists EmptyString, post. exact P.
    + rewrite IH by lia. split.
      * intros [pre [post H]]. exists (String c pre), post. simpl. now rewrite H.
      * intros [pre [post H]]. destruct pre as [|c' pre].
        -- simpl in H. assert (String.prefix sub (String c s) = true) as Q
             by (apply prefix_spec; eauto).
           congruence.
        -- simpl in H. inversion H. exists pre, post. reflexivity.
Qed.

(** [strings.Contains] decides the occurrence of a substring. *)
Lemma Contains_spec (s sub : string) :
  strings.Contains s sub = true <-> is_substring sub s.
Proof. unfold strings.Contains, strings.Index. apply IndexFrom_found. lia. Qed.

Lemma Contains_empty (s : string) : strings.Contains s EmptyString = true.
Proof.
  unfold strings.Contains, strings.Index.
  destruct s; simpl; reflexivity.
Qed.

(** The pieces of [Split] contain no separator, and joined by it they give
    the string back. *)
Lemma Split_nonempty (s : string) (sep : ascii) : strings.Split s sep <> [].
Proof.
  destruct s as [|c s]; simpl; [discriminate|].
  destruct (Ascii.eqb c sep); [discriminate|].
  destruct (strings.Split s sep); discriminate.
Qed.

Lemma Split_concat (s : string) (sep : ascii) :
  String.concat (String sep EmptyString) (strings.Split s sep) = s.
Proof.
  induction s as [|c s IH]; simpl; [reflexivity|].
  destruct (Ascii.eqb_spec c sep) as [->|Hne].
  - pose proof (Split_nonempty s sep) as Hn.
    destruct (strings.Split s sep) as [|w ws] eqn:E; [contradiction|].
    change (String.concat (String sep EmptyString) (EmptyString :: w :: ws))
      with (EmptyString +:+ String sep EmptyString
            +:+ String.concat (String sep EmptyString) (w :: ws)).
    rewrite IH. reflexivity.
  - pose proof (Split_nonempty s sep) as Hn.
    destruct (strings.Split s sep) as [|w ws] eqn:E; [contradiction|].
    destruct ws as [|w' ws].
    + simpl in *. now rewrite IH.
    + change (String.concat (String sep EmptyString) (String c w :: w' :: ws))
        with (String c (w +:+ String sep EmptyString
                        +:+ String.concat (String sep EmptyString) (w' :: ws))).
      change (String.concat (String sep EmptyString) (w :: w' :: ws))
        with (w +:+ String sep EmptyString
              +:+ String.concat (String sep EmptyString) (w' :: ws)) in IH.
      now rewrite IH.
Qed.

(** ** Contextualizer: matching *)

Section Matching.

Variable ToLower : string -> string.

Lemma relatedByName_filter (text : string) (entities : list Entity) :
  relatedByName ToLower text entities
  = List.filter (fun e => strings.Contains text (ToLower (Name e))) entities.
Proof.
  unfold relatedByName.
  now rewrite (fold_append_filter
                 (fun e => strings.Contains text (ToLower (Name e)))).
Qed.

Lemma anyKeyword_existsb (text : string) (keywords : list string) :
  anyKeyword text keywords = existsb (strings.Contains text) keywords.
Proof.
  induction keywords as [|kw rest IH]; simpl; [reflexivity|].
  rewrite IH. now destruct (strings.Contains text kw).
Qed.

Lemma relatedByKeyword_filter (text : string) (concepts : list Entity) :
  relatedByKeyword ToLower text concepts
  = List.filter
      (fun e => existsb (strings.Contains text) (keywordsOf ToLower e)) concepts.
Proof.
  unfold relatedByKeyword.
  rewrite (fold_append_filter
             (fun e => anyKeyword text (keywordsOf ToLower e))).
  simpl. apply filter_ext. intros e. apply anyKeyword_existsb.
Qed.



End Matching.


(** C10. An entity of the people, projects or concepts list whose name is
    empty is related to every task: the empty name occurs in every search
    text, and it splits into the single empty keyword. *)
Theorem empty_name_always_related (ToLower : string -> string)
    (ToLower_empty : ToLower EmptyString = EmptyString)
    (now : Z) (task : Task) (context : InertiaContext.t) (e : Entity)
    (Hname : Name e = EmptyString) :
  let tc := ContextualizeTask ToLower now task context in
  let g := InertiaContext.Gazetteer context in
  (In e (People g) -> In e (TaskContext.RelatedPeople tc))
  /\ (In e (Projects g) -> In e (TaskContext.RelatedProjects tc))
  /\ (In e (Concepts g) -> In e (TaskContext.RelatedConcepts tc)).
Proof.
  simpl. split; [|split]; intros Hin.
  - rewrite relatedByName_filter. apply filter_In. split; [exact Hin|].
    rewrite Hname, ToLower_empty. apply Contains_empty.
  - rewrite relatedByName_filter. apply filter_In. split; [exact Hin|].
    rewrite Hname, ToLower_empty. apply Contains_empty.
  - rewrite relatedByKeyword_filter. apply filter_In. split; [exact Hin|].
    unfold keywordsOf. rewrite Hname, ToLower_empty. simpl.
    now rewrite Contains_empty.
Qed.

Lemma empty_name_always_related_witness :
  let tc := ContextualizeTask strings.ToLowerASCII 0 exTask exContext in
  In nameless (TaskContext.RelatedPeople tc)
  /\ In nameless (TaskContext.RelatedProjects tc)
  /\ In nameless (TaskContext.RelatedConcepts tc).
Proof.
  destruct (empty_name_always_related strings.ToLowerASCII eq_refl 0
              exTask exContext nameless eq_refl) as [H1 [H2 H3]].
  split; [|split].
  - apply H1. simpl. auto.
  - apply H2. simpl. auto.
  - apply H3. simpl. auto 6.
Defined.

(** The example of the test suite: "Journaling" matches by its whole name,
    "Morning Journaling Ritual" by one keyword; a project needs its whole
    name. *)
Example ContextualizeTask_example :
  let tc := ContextualizeTask strings.ToLowerASCII 0 exTask exContext in
  map Name (TaskContext.RelatedConcepts tc)
  = ["Journaling"; "Morning Journaling Ritual"; ""]
  /\ map Name (TaskContext.RelatedProjects tc) = ["New App"; ""]
  /\ map Name (TaskContext.RelatedPeople tc) = [""].
Proof. vm_compute. repeat split. Qed.

(** Case does not matter on either side, and a name that straddles content
    and description matches through the space that joins them. *)
Example ContextualizeTask_case_example :
  let ctx := mkContext [mkEntity "ADA lovelace" ""] [mkEntity "new APP" ""]
                       [mkEntity "JOURNALING habit" ""] in
  let tc := ContextualizeTask strings.ToLowerASCII 0
              (mkTask "1" "Finish Journaling with Ada" "Lovelace: new app" None 0)
              ctx in
  map Name (TaskContext.RelatedPeople tc) = ["ADA lovelace"]
  /\ map Name (TaskContext.RelatedProjects tc) = ["new APP"]
  /\ map Name (TaskContext.RelatedConcepts tc) = ["JOURNALING habit"].
Proof. vm_compute. repeat split. Qed.

(** ** Decision executor *)

Lemma ExecuteDecision_unknown_action {W : Type} {R : runner.CommandRunner W}
    (w : W) (d : Decision.t) :
  ~ In (Decision.Action d) action_tags -> ExecuteDecision w d = (w, []).
Proof.
  intros H. unfold ExecuteDecision.
  repeat match goal with
  | |- context [String.eqb ?a ?b] =>
      destruct (String.eqb_spec a b) as [E|_];
      [exfalso; apply H; rewrite E; simpl; tauto|]
  end.
  reflexivity.
Qed.

(** C8. Executing a [reprioritize] decision that carries a priority [n] is
    exactly one call of the task-source command
    [td task update <task id> --priority p<n>]: the world afterwards is the
    world after that one call, and the recording runner has recorded that
    command and no other.  Without a priority nothing is called and nothing
    is logged. *)
Theorem ExecuteDecision_reprioritize (d : Decision.t)
    (Haction : Decision.Action d = "reprioritize") :
  (forall n, Decision.Priority d = Some n ->
     let args := ["task"; "update"; Decision.TaskID d; "--priority";
                  "p" +:+ strconv.Itoa n] in
     (forall (W : Type) (R : runner.CommandRunner W) (w : W),
        fst (ExecuteDecision w d) = fst (runner.Run w "td" args))
     /\ (forall m : runner.MockRunner,
           runner.CalledCommands (fst (ExecuteDecision m d))
           = runner.CalledCommands m ++ [ "td" :: args ]))
  /\ (Decision.Priority d = None ->
      forall (W : Type) (R : runner.CommandRunner W) (w : W),
        ExecuteDecision w d = (w, [])).
Proof.
  split.
  - intros n Hn args.
    assert (G : forall (W : Type) (R : runner.CommandRunner W) (w : W),
               fst (ExecuteDecision w d) = fst (runner.Run w "td" args)).
    { intros W R w. unfold ExecuteDecision. rewrite Haction, Hn. simpl.
      fold args. destruct (runner.Run w "td" args) as [w' [err|]]; reflexivity. }
    split; [exact G|].
    intros m. rewrite G. reflexivity.
  - intros Hn W R w. unfold ExecuteDecision. rewrite Haction, Hn. reflexivity.
Qed.

Lemma ExecuteDecision_reprioritize_witness :
  runner.CalledCommands (fst (ExecuteDecision emptyMock reprioritize123))
  = [["td"; "task"; "update"; "123"; "--priority"; "p2"]].
Proof.
  exact (proj2 (proj1 (ExecuteDecision_reprioritize reprioritize123 eq_refl)
                  2 eq_refl) emptyMock).
Defined.

(** ** Response parser *)

Lemma ParseDecisionResponse_no_bracket (response taskID : string) :
  strings.Index response "{" = -1 \/ strings.LastIndex response "}" = -1 ->
  ParseDecisionResponse response taskID
  = Returned (skipDecision taskID "Failed to parse LLM response").
Proof.
  intros H. unfold ParseDecisionResponse.
  destruct H as [-> | ->]; simpl; [reflexivity|].
  now rewrite orb_true_r.
Qed.

Lemma ParseDecisionResponse_brackets (response taskID : string) :
  strings.Index response "{" <> -1 ->
  strings.LastIndex response "}" <> -1 ->
  ParseDecisionResponse response taskID
  = match payload_of response with
    | None => Panicked "slice bounds out of range"
    | Some jsonStr =>
        match json.Unmarshal_decision jsonStr with
        | inr err =>
            Returned (skipDecision taskID ("JSON parse error: " +:+ json.Error err))
        | inl result =>
            Returned
              {| Decision.TaskID := taskID;
                 Decision.Action := json.action result;
                 Decision.Priority := json.priority result;
                 Decision.NewContent := json.new_content result;
                 Decision.Subtasks := json.subtasks result;
                 Decision.Reasoning := json.reasoning result;
                 Decision.InertiaScore := json.inertia_score result |}
        end
    end.
Proof.
  intros H1 H2. unfold ParseDecisionResponse, payload_of.
  apply Z.eqb_neq in H1, H2. now rewrite H1, H2.
Qed.

(** X1. Where the parser returns after a missing bracket or a failed
    decoding, the decision is [skip] with a diagnostic that is not empty. *)
Lemma ParseDecisionResponse_degrades (response taskID : string) (d : Decision.t) :
  ParseDecisionResponse response taskID = Returned d ->
  strings.Index response "{" = -1 \/ strings.LastIndex response "}" = -1
  \/ (exists jsonStr err, payload_of response = Some jsonStr
                          /\ json.Unmarshal_decision jsonStr = inr err) ->
  Decision.Action d = "skip" /\ Decision.Reasoning d <> EmptyString.
Proof.
  intros Hd H.
  destruct (Z.eq_dec (strings.Index response "{") (-1)) as [E1|N1];
    [|destruct (Z.eq_dec (strings.LastIndex response "}") (-1)) as [E2|N2]].
  - rewrite ParseDecisionResponse_no_bracket in Hd by auto.
    inversion Hd. split; [reflexivity|discriminate].
  - rewrite ParseDecisionResponse_no_bracket in Hd by auto.
    inversion Hd. split; [reflexivity|discriminate].
  - destruct H as [H|[H|[jsonStr [err [Hp He]]]]]; try contradiction.
    rewrite ParseDecisionResponse_brackets, Hp, He in Hd by assumption.
    inversion Hd. split; [reflexivity|discriminate].
Qed.

Lemma prefix_length (p s : string) :
  String.prefix p s = true -> (String.length p <= String.length s)%nat.
Proof.
  intros H. apply prefix_spec in H. destruct H as [post ->].
  induction p as [|a p IH]; simpl; lia.
Qed.

Lemma IndexFrom_bounds (s sub : string) (i : Z) :
  strings.IndexFrom i s sub = -1
  \/ (i <= strings.IndexFrom i s sub
      /\ strings.IndexFrom i s sub + Z.of_nat (String.length sub)
         <= i + Z.of_nat (String.length s)).
Proof.
  revert i; induction s as [|c s IH]; intros i; cbn [strings.IndexFrom].
  - destruct (String.prefix sub EmptyString) eqn:P; [|auto].
    apply prefix_length in P. right. lia.
  - destruct (String.prefix sub (String c s)) eqn:P.
    + apply prefix_length in P. right. lia.
    + destruct (IH (i + 1)) as [H|H]; [auto|].
      right. cbn [String.length]. lia.
Qed.

Lemma LastIndexFrom_bounds (s sub : string) (i : Z) :
  strings.LastIndexFrom i s sub = -1
  \/ (i <= strings.LastIndexFrom i s sub
      /\ strings.LastIndexFrom i s sub + Z.of_nat (String.length sub)
         <= i + Z.of_nat (String.length s)).
Proof.
  revert i; induction s as [|c s IH]; intros i; cbn [strings.LastIndexFrom].
  - destruct (String.prefix sub EmptyString) eqn:P; [|auto].
    apply prefix_length in P. right. lia.
  - destruct (IH (i + 1)) as [H|H].
    + rewrite H. change (0 <=? -1) with false. cbv iota.
      destruct (String.prefix sub (String c s)) eqn:P; [|auto].
      apply prefix_length in P. right. lia.
    + destruct (Z.leb_spec 0 (strings.LastIndexFrom (i + 1) s sub)).
      * right. cbn [String.length]. lia.
      * destruct (String.prefix sub (String c s)) eqn:P; [|auto].
        apply prefix_length in P. right. lia.
Qed.

(** With both brackets present the slice expression is out of bounds exactly
    when the last closing brace lies two or more bytes before the first
    opening one. *)
Lemma payload_of_none_iff (response : string) :
  strings.Index response "{" <> -1 ->
  strings.LastIndex response "}" <> -1 ->
  payload_of response = None
  <-> strings.LastIndex response "}" + 1 < strings.Index response "{".
Proof.
  intros H1 H2. unfold payload_of, slice.
  destruct (IndexFrom_bounds response "{" 0) as [E|[B1 B2]];
    [unfold strings.Index in H1; contradiction|].
  destruct (LastIndexFrom_bounds response "}" 0) as [E|[B3 B4]];
    [unfold strings.LastIndex in H2; contradiction|].
  fold (strings.Index response "{") in B1, B2.
  fold (strings.LastIndex response "}") in B3, B4.
  simpl String.length in B2, B4.
  destruct (Z.leb_spec 0 (strings.Index response "{")); [|lia].
  destruct (Z.leb_spec (strings.LastIndex response "}" + 1)
              (Z.of_nat (String.length response))); [|lia].
  destruct (Z.leb_spec (strings.Index response "{")
              (strings.LastIndex response "}" + 1)); simpl.
  - split; [discriminate|lia].
  - split; [lia|reflexivity].
Qed.

(** X2. The parser panics exactly when a closing brace occurs and the last
    one lies two or more bytes before the first opening brace; on every
    other response it returns a decision. *)
Lemma ParseDecisionResponse_panics_iff (response taskID : string) :
  (exists msg, ParseDecisionResponse response taskID = Panicked msg)
  <-> 0 <= strings.LastIndex response "}"
      /\ strings.LastIndex response "}" + 1 < strings.Index response "{".
Proof.
  destruct (LastIndexFrom_bounds response "}" 0) as [E|[B3 B4]];
    fold (strings.LastIndex response "}") in *.
  - rewrite ParseDecisionResponse_no_bracket by auto.
    split; [intros [msg H]; discriminate | lia].
  - destruct (Z.eq_dec (strings.Index response "{") (-1)) as [E1|N1].
    + rewrite ParseDecisionResponse_no_bracket by auto.
      split; [intros [msg H]; discriminate | lia].
    + assert (N2 : strings.LastIndex response "}" <> -1) by lia.
      rewrite ParseDecisionResponse_brackets by assumption.
      rewrite <- (payload_of_none_iff response N1 N2).
      destruct (payload_of response) as [jsonStr|].
      * split; [|intros [_ H]; discriminate].
        intros [msg H]. destruct (json.Unmarshal_decision jsonStr); discriminate.
      * split; [intros _; split; [lia|reflexivity]|eauto].
Qed.

(** C2. The response ["} {"] holds both brackets, the last closing one two
    bytes before the first opening one: the slice expression
    [response[2:1]] panics, for every task id, and no decision is returned. *)
Theorem ParseDecisionResponse_panics_on_reversed_brackets (taskID : string) :
  strings.Index "} {" "{" = 2
  /\ strings.LastIndex "} {" "}" = 0
  /\ ParseDecisionResponse "} {" taskID = Panicked "slice bounds out of range".
Proof. repeat split. Qed.



(** The responses of the test suite. *)
Example ParseDecisionResponse_examples :
  (exists d, ParseDecisionResponse
               (dq "{'action': 'skip', 'reasoning': 'all good'}") "123" = Returned d
             /\ Decision.Action d = "skip")
  /\ (exists d, ParseDecisionResponse
                  (dq "{'action': 'reprioritize', 'priority': 1, 'reasoning': 'urgent'}")
                  "123" = Returned d
                /\ Decision.Action d = "reprioritize"
                /\ Decision.Priority d = Some 1)
  /\ ParseDecisionResponse "no JSON here" "123"
     = Returned (skipDecision "123" "Failed to parse LLM response")
  /\ ParseDecisionResponse (dq "{'action': 'skip', }") "123"
     = Returned (skipDecision "123" "JSON parse error: invalid JSON input")
  /\ ParseDecisionResponse "}{" "123"
     = Returned (skipDecision "123" "JSON parse error: invalid JSON input").
Proof.
  split; [|split; [|split; [|split]]].
  - eexists. split; [vm_compute; reflexivity|reflexivity].
  - eexists. split; [vm_compute; reflexivity|split; reflexivity].
  - vm_compute. reflexivity.
  - vm_compute. reflexivity.
  - vm_compute. reflexivity.
Qed.


(** ** Parallel dispatcher: the concurrency bound *)

Section DispatcherBound.

Import Dispatcher.

Lemma count_app (f : phase -> bool) (ws1 ws2 : list (Task * phase)) :
  count f (ws1 ++ ws2) = (count f ws1 + count f ws2)%nat.
Proof. unfold count. now rewrite List.filter_app, length_app. Qed.

Lemma count_cons (f : phase -> bool) (w : Task * phase) (ws : list (Task * phase)) :
  count f (w :: ws) = ((if f (snd w) then 1 else 0) + count f ws)%nat.
Proof. unfold count. simpl. now destruct (f (snd w)). Qed.

Lemma count_nil (f : phase -> bool) : count f [] = 0%nat.
Proof. reflexivity. Qed.

Lemma count_middle (f : phase -> bool) ws1 (t : Task) (ph : phase) ws2 :
  count f (ws1 ++ (t, ph) :: ws2)
  = (count f ws1 + (if f ph then 1 else 0) + count f ws2)%nat.
Proof. rewrite count_app, count_cons. simpl. lia. Qed.

Lemma count_le (ws : list (Task * phase)) :
  (count is_calling ws <= count holds_slot ws)%nat.
Proof.
  induction ws as [|[t ph] ws IH]; [reflexivity|].
  rewrite !count_cons. simpl. destruct ph; simpl; lia.
Qed.

Variable maxConcurrency : nat.

Lemma slots_accounted_init (tasks : list Task) :
  slots_accounted maxConcurrency (init tasks).
Proof. unfold slots_accounted, slot_holders. simpl. split; [reflexivity|lia]. Qed.

(** Every step keeps the invariant: only [step_acquire] adds a token, and
    only below the capacity; only [step_release] removes one, together with
    the slot of the worker that takes it. *)
Lemma slots_accounted_step (s s' : state) :
  slots_accounted maxConcurrency s -> step maxConcurrency s s' ->
  slots_accounted maxConcurrency s'.
Proof.
  unfold slots_accounted, slot_holders.
  intros [Hsem Hcap] Hstep.
  destruct Hstep; simpl in *;
    repeat match goal with
           | H : pc _ = _ |- _ => rewrite H in *
           | H : workers _ = _ |- _ => rewrite H in *
           end;
    rewrite ?count_middle, ?count_app, ?count_cons, ?count_nil in *; simpl in *;
    split; lia.
Qed.

Lemma slots_accounted_reachable (tasks : list Task) (s : state) :
  reachable maxConcurrency tasks s -> slots_accounted maxConcurrency s.
Proof.
  induction 1 as [|s s' _ IH Hstep].
  - apply slots_accounted_init.
  - exact (slots_accounted_step s s' IH Hstep).
Qed.

End DispatcherBound.

(** C7. In every state of every execution of the dispatcher over any task
    list, under a bound [K >= 1], the tasks that have acquired a semaphore
    slot and not yet released it number at most [K]; the outstanding
    invocations of the reasoning engine are among them. *)
Theorem ProcessTasksParallel_bound (K : nat) (tasks : list Task)
    (s : Dispatcher.state) :
  (1 <= K)%nat ->
  Dispatcher.reachable K tasks s ->
  (Dispatcher.outstanding s <= Dispatcher.slot_holders s)%nat
  /\ (Dispatcher.slot_holders s <= K)%nat.
Proof.
  intros _ Hreach.
  destruct (slots_accounted_reachable K tasks s Hreach) as [Hsem Hcap].
  split; [|lia].
  unfold Dispatcher.outstanding, Dispatcher.slot_holders.
  pose proof (count_le (Dispatcher.workers s)). lia.
Qed.

Ltac dispatcher_step R mk :=
  match type of R with
  | Dispatcher.reachable ?K ?ts ?s =>
      let st := mk s in
      let R' := fresh in
      pose proof (Dispatcher.reach_step K ts s _ R st) as R';
      clear R; rename R' into R
  end.

Lemma exBusy_reachable : Dispatcher.reachable 1 [exTask; exTask2] exBusy.
Proof.
  pose proof (Dispatcher.reach_init 1 [exTask; exTask2]) as R.
  dispatcher_step R
    ltac:(fun s => constr:(Dispatcher.step_add 1 s exTask [exTask2] eq_refl)).
  dispatcher_step R
    ltac:(fun s => constr:(Dispatcher.step_acquire 1 s exTask [exTask2] eq_refl
                             (Nat.lt_0_succ 0))).
  dispatcher_step R
    ltac:(fun s => constr:(Dispatcher.step_go 1 s exTask [exTask2] eq_refl)).
  dispatcher_step R
    ltac:(fun s => constr:(Dispatcher.step_add 1 s exTask2 [] eq_refl)).
  dispatcher_step R
    ltac:(fun s => constr:(Dispatcher.step_call 1 s [] exTask [] eq_refl)).
  exact R.
Defined.

Lemma ProcessTasksParallel_bound_witness :
  (Dispatcher.outstanding exBusy <= Dispatcher.slot_holders exBusy)%nat
  /\ (Dispatcher.slot_holders exBusy <= 1)%nat.
Proof.
  apply (ProcessTasksParallel_bound 1 [exTask; exTask2] exBusy).
  - lia.
  - exact exBusy_reachable.
Defined.


(** The second task cannot take a slot while the first holds the only one. *)
Example exBusy_blocks (s' : Dispatcher.state) :
  Dispatcher.step 1 exBusy s' -> Dispatcher.pc s' = Dispatcher.pc exBusy.
Proof.
  intros H. inversion H; subst; simpl in *; try discriminate; try reflexivity.
  lia.
Qed.

(** ** The command line: the context option *)

Lemma Parse_keeps_context (ParseInt : string -> option Z) (n : nat) :
  forall (args : list string) (f f' : flag.Flags),
    (length args <= n)%nat ->
    (forall a, In a args -> flag.names_context a = false) ->
    flag.Parse ParseInt args f = inl f' ->
    flag.contextFile f' = flag.contextFile f.
Proof.
  induction n as [|n IH]; intros args f f' Hlen Hno Hparse.
  - destruct args; [|simpl in Hlen; lia]. simpl in Hparse. now inversion Hparse.
  - destruct args as [|s rest]; [simpl in Hparse; now inversion Hparse|].
    simpl in Hlen.
    assert (Hs : flag.names_context s = false) by (apply Hno; simpl; auto).
    assert (Hrest : forall a, In a rest -> flag.names_context a = false)
      by (intros a Ha; apply Hno; simpl; auto).
    cbn [flag.Parse] in Hparse. unfold flag.names_context in Hs.
    destruct (flag.flag_body s) as [body|]; [|now inversion Hparse].
    destruct (String.eqb s "--"); [now inversion Hparse|].
    destruct (String.prefix "-" body || String.prefix "=" body); [discriminate|].
    destruct (flag.split_eq body) as [name value]. simpl in Hs.
    rewrite Hs in Hparse.
    destruct (String.eqb name "dry-run").
    { destruct value as [v|].
      - destruct (flag.ParseBool v); [|discriminate].
        apply IH in Hparse; [assumption|lia|assumption].
      - apply IH in Hparse; [assumption|lia|assumption]. }
    destruct (String.eqb name "concurrency").
    { destruct value as [v|].
      - destruct (ParseInt v); [|discriminate].
        apply IH in Hparse; [assumption|lia|assumption].
      - destruct rest as [|v rest']; [discriminate|].
        destruct (ParseInt v); [|discriminate].
        apply IH in Hparse; [assumption|simpl in Hlen; lia|].
        intros a Ha. apply Hrest. simpl. auto. }
    destruct (String.eqb name "help" || String.eqb name "h"); discriminate.
Qed.

(** C9, as the code has it.  The context option is optional: when no
    argument names it and the flags are accepted, the run loads the context
    from the built-in default path. *)
Theorem main_default_context (ParseInt : string -> option Z)
    (args : list string) (f : flag.Flags) :
  (forall a, In a args -> flag.names_context a = false) ->
  flag.Parse ParseInt args flag.defaults = inl f ->
  main_startup ParseInt args = LoadsContext "logs/inertia-context-2026-02-22.json".
Proof.
  intros Hno E. unfold main_startup. rewrite E. f_equal.
  apply (Parse_keeps_context ParseInt (length args) args flag.defaults f);
    [lia|assumption|assumption].
Qed.

Lemma main_default_context_witness :
  main_startup ParseIntDecimal ["--concurrency"; "20"]
  = LoadsContext "logs/inertia-context-2026-02-22.json".
Proof.
  apply (main_default_context ParseIntDecimal ["--concurrency"; "20"]
           {| flag.contextFile := "logs/inertia-context-2026-02-22.json";
              flag.dryRun := false; flag.maxConcurrency := 20 |}).
  - intros a [<-|[<-|[]]]; reflexivity.
  - reflexivity.
Defined.

(** A run without the context option does load a built-in default path. *)
Lemma main_context_counterexample :
  (forall a, In a ["--dry-run"] -> flag.names_context a = false)
  /\ main_startup ParseIntDecimal ["--dry-run"]
     = LoadsContext "logs/inertia-context-2026-02-22.json"
  /\ main_startup ParseIntDecimal []
     = LoadsContext (flag.contextFile flag.defaults).
Proof.
  split; [|split; reflexivity].
  intros a [<-|[]]. reflexivity.
Qed.

(** With the option the path is the one given. *)
Example main_context_given :
  main_startup ParseIntDecimal ["--context"; "../logs/today.json"; "--dry-run"]
  = LoadsContext "../logs/today.json"
  /\ main_startup ParseIntDecimal ["-context=ctx.json"] = LoadsContext "ctx.json".
Proof. split; reflexivity. Qed.

(** ** The order of [float64] *)

Ltac compare_cases :=
  repeat match goal with
  | H : context [Z.compare ?a ?b] |- _ => destruct (Z.compare_spec a b)
  | |- context [Z.compare ?a ?b] => destruct (Z.compare_spec a b)
  | H : context [Pos.compare ?a ?b] |- _ => destruct (Pos.compare_spec a b)
  | |- context [Pos.compare ?a ?b] => destruct (Pos.compare_spec a b)
  end.

Ltac float_cases a b c :=
  unfold SFltb, SFcompare;
  destruct a as [?|?| |? ? ?], b as [?|?| |? ? ?], c as [?|?| |? ? ?];
  try congruence; try reflexivity;
  repeat match goal with s : bool |- _ => destruct s end;
  try discriminate; try reflexivity;
  change (Pos.compare_cont Eq) with Pos.compare;
  intros; compare_cases; simpl in *;
  try discriminate; try reflexivity; try lia.

Lemma SFltb_trans (a b c : spec_float) :
  SFltb a b = true -> SFltb b c = true -> SFltb a c = true.
Proof. float_cases a b c. Qed.

(** Away from NaN the comparison is that of a total preorder. *)
Lemma SFltb_neg_trans (a b c : spec_float) :
  b <> S754_nan ->
  SFltb a b = false -> SFltb b c = false -> SFltb a c = false.
Proof. intros Hb. revert Hb. float_cases a b c. Qed.

Lemma SFltb_not_nan (a b : spec_float) :
  SFltb a b = true -> a <> S754_nan /\ b <> S754_nan.
Proof.
  unfold SFltb, SFcompare.
  destruct a, b; try discriminate; intros _; split; discriminate.
Qed.

Lemma SFltb_irrefl (a : spec_float) : SFltb a a = false.
Proof.
  unfold SFltb, SFcompare.
  destruct a as [s|s| |s m e]; try reflexivity; destruct s; try reflexivity;
    rewrite Z.compare_refl; change (Pos.compare_cont Eq) with Pos.compare;
    now rewrite Pos.compare_refl.
Qed.

(** ** Contextualizer: historical weight *)

(** The running maximum of lines 203-209 from any start [m0] that is a
    number: the result is a number, is not below the start, is not exceeded
    by any span of the list, and is the start or one of the spans. *)
Lemma maxSpan_fold (l : list Entity) :
  forall m0 : spec_float,
    m0 <> S754_nan ->
    let r := fold_left
               (fun maxSpan concept =>
                  let years := GetSpanYears concept in
                  if float64.gtb years maxSpan then years else maxSpan) l m0 in
    r <> S754_nan
    /\ float64.gtb m0 r = false
    /\ (forall c, In c l -> float64.gtb (GetSpanYears c) r = false)
    /\ (r = m0 \/ exists c, In c l /\ r = GetSpanYears c).
Proof.
  unfold float64.gtb.
  induction l as [|c l IH]; intros m0 Hm0; simpl.
  - repeat split; auto using SFltb_irrefl. intros c [].
  - destruct (SFltb m0 (GetSpanYears c)) eqn:E.
    + destruct (SFltb_not_nan _ _ E) as [_ Hy].
      destruct (IH (GetSpanYears c) Hy) as [Hr [H0 [Hall Hin]]].
      split; [exact Hr|]. split; [|split].
      * destruct (SFltb (fold_left _ l (GetSpanYears c)) m0) eqn:F; [|reflexivity].
        rewrite (SFltb_trans _ _ _ F E) in H0. discriminate.
      * intros c' [<-|Hc']; [exact H0|now apply Hall].
      * right. destruct Hin as [->|[c' [Hc' ->]]]; eauto.
    + destruct (IH m0 Hm0) as [Hr [H0 [Hall Hin]]].
      split; [exact Hr|]. split; [exact H0|]. split.
      * intros c' [<-|Hc']; [|now apply Hall].
        exact (SFltb_neg_trans _ m0 _ Hm0 H0 E).
      * destruct Hin as [->|[c' [Hc' ->]]]; eauto.
Qed.

(** A span that is absent, or is not one JSON number, counts as zero. *)
Lemma GetSpanYears_not_number (e : Entity) :
  SpanYears e = EmptyString
  \/ (forall n, json.parse (SpanYears e) <> Some (json.Number n)) ->
  GetSpanYears e = float64.zero.
Proof.
  unfold GetSpanYears, json.Unmarshal_float64.
  intros [->|H]; [reflexivity|].
  destruct (String.length (SpanYears e) =? 0)%nat; [reflexivity|].
  destruct (json.parse (SpanYears e)) as [v|]; [|reflexivity].
  destruct v; try reflexivity.
  now contradiction (H n).
Qed.

(** C5, as the code has it.  The historical weight is the running maximum of
    zero and the spans of the matched concepts: it is zero when no concept
    matched, a number never below zero, not exceeded by the span of any
    matched concept, and is zero or the span of a matched concept; a span that is
    absent or not a JSON number counts as zero; people and projects (and
    everything but the search text and the concepts) have no part in it. *)
Theorem HistoricalWeight_spec (ToLower : string -> string) (now : Z)
    (task : Task) (context : InertiaContext.t) :
  let tc := ContextualizeTask ToLower now task context in
  let w := TaskContext.HistoricalWeight tc in
  let matched := TaskContext.RelatedConcepts tc in
  (matched = [] -> w = float64.zero)
  /\ w <> S754_nan
  /\ float64.gtb float64.zero w = false
  /\ (forall c, In c matched -> float64.gtb (GetSpanYears c) w = false)
  /\ (w = float64.zero \/ exists c, In c matched /\ w = GetSpanYears c)
  /\ (forall c, SpanYears c = EmptyString
                \/ (forall n, json.parse (SpanYears c) <> Some (json.Number n)) ->
                GetSpanYears c = float64.zero)
  /\ (forall now' context',
        Concepts (InertiaContext.Gazetteer context')
        = Concepts (InertiaContext.Gazetteer context) ->
        TaskContext.HistoricalWeight (ContextualizeTask ToLower now' task context')
        = w).
Proof.
  simpl.
  destruct (maxSpan_fold
              (relatedByKeyword ToLower (taskText ToLower task)
                 (Concepts (InertiaContext.Gazetteer context)))
              float64.zero) as [Hnan [H0 [Hall Hin]]]; [discriminate|].
  split; [|split; [|split; [|split; [|split; [|split]]]]].
  - unfold maxSpanOf. now intros ->.
  - exact Hnan.
  - exact H0.
  - exact Hall.
  - exact Hin.
  - exact GetSpanYears_not_number.
  - intros now' context' ->. reflexivity.
Qed.

(** A single matched concept with the span -3: the weight is zero, not the
    span. *)
Lemma HistoricalWeight_counterexample :
  let tc := ContextualizeTask strings.ToLowerASCII 0 debtTask debtContext in
  TaskContext.RelatedConcepts tc = [debtConcept]
  /\ GetSpanYears debtConcept = float64.of_int (-3)
  /\ TaskContext.HistoricalWeight tc = float64.zero
  /\ TaskContext.HistoricalWeight tc <> GetSpanYears debtConcept.
Proof.
  assert (E1 : GetSpanYears debtConcept = float64.of_int (-3))
    by (vm_compute; reflexivity).
  assert (E2 : TaskContext.HistoricalWeight
                 (ContextualizeTask strings.ToLowerASCII 0 debtTask debtContext)
               = float64.zero) by (vm_compute; reflexivity).
  cbv zeta. split; [vm_compute; reflexivity|]. split; [exact E1|].
  split; [exact E2|]. rewrite E2, E1. vm_compute. discriminate.
Qed.

(** The weights of the test suite: spans 10, 5 and 0.4, the text matching
    two of the concepts. *)
Example HistoricalWeight_example :
  TaskContext.HistoricalWeight
    (ContextualizeTask strings.ToLowerASCII 0 exTask exContext)
  = float64.of_int 10
  /\ TaskContext.HistoricalWeight
       (ContextualizeTask strings.ToLowerASCII 0 exTask2 exContext)
     = float64.zero.
Proof. split; vm_compute; reflexivity. Qed.

(** ** Contextualizer: age *)









(** The rounding of float64 shows on long durations: one nanosecond short of
    1000 days counts as 1000 days. *)
Example age_of_duration_rounds :
  age_of_duration (1000 * 24 * time.Hour - 1) = 1000
  /\ Z.quot (1000 * 24 * time.Hour - 1) (24 * time.Hour) = 999.
Proof. split; vm_compute; reflexivity. Qed.

(** ** Leaf filter: a second pass *)

Lemma FilterLeafNodes_filter (tasks : list Task) :
  FilterLeafNodes tasks
  = List.filter (fun t => negb (is_parent_idb tasks (ID t))) tasks.
Proof.
  unfold FilterLeafNodes.
  rewrite (fold_append_filter
             (fun task => negb (map_index (collectParentIDs tasks) (ID task)))).
  simpl. apply filter_ext. intros t. now rewrite collectParentIDs_lookup.
Qed.

Lemma filter_all {A : Type} (p : A -> bool) (l : list A) :
  List.filter p l = l <-> forall x, In x l -> p x = true.
Proof.
  induction l as [|a l IH]; simpl.
  - split; [intros _ x []|reflexivity].
  - destruct (p a) eqn:E.
    + split.
      * intros H x [<-|Hx]; [exact E|]. apply IH; [congruence|exact Hx].
      * intros H. f_equal. apply IH. auto.
    + split.
      * intros H. pose proof (List.filter_length_le p l) as L.
        rewrite H in L. simpl in L. lia.
      * intros H. specialize (H a (or_introl eq_refl)). congruence.
Qed.

Lemma is_parent_idb_filter (p : Task -> bool) (tasks : list Task) (i : string) :
  is_parent_idb (List.filter p tasks) i = true -> is_parent_idb tasks i = true.
Proof.
  unfold is_parent_idb. rewrite !existsb_exists.
  intros [u [Hu H]]. exists u. split; [|exact H].
  apply filter_In in Hu. tauto.
Qed.

(** X3. The leaf filter is idempotent: among the leaves of a list no task is
    the parent of another, so a second pass removes nothing. *)
Theorem FilterLeafNodes_idempotent (tasks : list Task) :
  FilterLeafNodes (FilterLeafNodes tasks) = FilterLeafNodes tasks.
Proof.
  rewrite (FilterLeafNodes_filter (FilterLeafNodes tasks)).
  apply filter_all. intros t Ht.
  rewrite FilterLeafNodes_filter in Ht |- *.
  apply filter_In in Ht. destruct Ht as [_ Ht].
  apply negb_true_iff. apply negb_true_iff in Ht.
  destruct (is_parent_idb (List.filter _ tasks) (ID t)) eqn:E; [|reflexivity].
  apply is_parent_idb_filter in E. congruence.
Qed.

(** X4. The leaf filter returns its input unchanged exactly when no task of
    the input has the identifier that some task names as its parent; a
    parent that is not in the list removes nothing. *)
Theorem FilterLeafNodes_unchanged_iff (tasks : list Task) :
  FilterLeafNodes tasks = tasks
  <-> forall t u, In t tasks -> In u tasks -> ParentID u <> Some (ID t).
Proof.
  rewrite FilterLeafNodes_filter, filter_all. split.
  - intros H t u Ht Hu E. specialize (H t Ht).
    apply negb_true_iff in H.
    assert (is_parent_idb tasks (ID t) = true) as Q
      by (apply is_parent_idb_spec; exists u; auto).
    congruence.
  - intros H t Ht. apply negb_true_iff.
    destruct (is_parent_idb tasks (ID t)) eqn:E; [|reflexivity].
    apply is_parent_idb_spec in E. destruct E as [u [Hu E]].
    now contradiction (H t u).
Qed.

(** ** Contextualizer: whole names and keywords *)

Lemma string_app_assoc (a b c : string) : (a +:+ b) +:+ c = a +:+ (b +:+ c).
Proof.
  induction a as [|x a IH]; [reflexivity|].
  change (String x ((a +:+ b) +:+ c) = String x (a +:+ (b +:+ c))).
  now rewrite IH.
Qed.

Lemma string_app_nil_r (a : string) : a +:+ EmptyString = a.
Proof.
  induction a as [|x a IH]; [reflexivity|].
  change (String x (a +:+ EmptyString) = String x a). now rewrite IH.
Qed.

Lemma string_app_length (a b : string) :
  String.length (a +:+ b) = (String.length a + String.length b)%nat.
Proof.
  induction a as [|x a IH]; [reflexivity|].
  change (S (String.length (a +:+ b)) = S (String.length a + String.length b)).
  now rewrite IH.
Qed.

Lemma is_substring_refl (s : string) : is_substring s s.
Proof. exists EmptyString, EmptyString. simpl. now rewrite string_app_nil_r. Qed.

Lemma is_substring_trans (a b c : string) :
  is_substring a b -> is_substring b c -> is_substring a c.
Proof.
  intros [p1 [q1 ->]] [p2 [q2 ->]].
  exists (p2 +:+ p1), (q1 +:+ q2). now rewrite !string_app_assoc.
Qed.

Lemma is_substring_app_l (x s t : string) :
  is_substring x s -> is_substring x (s +:+ t).
Proof.
  intros [p [q ->]]. exists p, (q +:+ t). now rewrite !string_app_assoc.
Qed.

Lemma is_substring_app_r (x s t : string) :
  is_substring x t -> is_substring x (s +:+ t).
Proof.
  intros [p [q ->]]. exists (s +:+ p), q. now rewrite !string_app_assoc.
Qed.

Lemma is_substring_cons (x s : string) (c : ascii) :
  is_substring x s -> is_substring x (String c s).
Proof. intros [p [q ->]]. now exists (String c p), q. Qed.

(** The first piece of [Split] starts the string that was split, and every
    piece occurs in it. *)
Lemma Split_pieces_aux (s : string) (sep : ascii) :
  forall w0 ws, strings.Split s sep = w0 :: ws ->
    (exists q, s = w0 +:+ q) /\ forall w, In w ws -> is_substring w s.
Proof.
  induction s as [|c s IH]; intros w0 ws; simpl.
  - intros H. inversion H. split; [now exists EmptyString|intros w []].
  - pose proof (Split_nonempty s sep) as Hn.
    destruct (strings.Split s sep) as [|v0 vs] eqn:E; [contradiction|].
    destruct (IH v0 vs eq_refl) as [[q Hq] Hrest].
    destruct (Ascii.eqb c sep).
    + intros H. inversion H. subst w0 ws. split; [now exists (String c s)|].
      intros w [<-|Hw]; apply is_substring_cons.
      * exists EmptyString, q. exact Hq.
      * now apply Hrest.
    + intros H. inversion H. subst w0 ws. split.
      * exists q. change (String c s = String c (v0 +:+ q)). now rewrite <- Hq.
      * intros w Hw. apply is_substring_cons. now apply Hrest.
Qed.

Lemma Split_pieces (s : string) (sep : ascii) (w : string) :
  In w (strings.Split s sep) -> is_substring w s.
Proof.
  pose proof (Split_nonempty s sep) as Hn.
  destruct (strings.Split s sep) as [|w0 ws] eqn:E; [contradiction|].
  destruct (Split_pieces_aux s sep w0 ws E) as [[q Hq] Hrest].
  intros [<-|Hw]; [|now apply Hrest].
  exists EmptyString, q. exact Hq.
Qed.

(** X5. Matching by keyword is the weaker test: an entity whose whole
    lower-cased name occurs in the search text has every one of its keywords
    there, so whatever the name test of people and projects accepts, the
    keyword test of concepts accepts too. *)
Theorem name_match_is_keyword_match (ToLower : string -> string)
    (text : string) (entities : list Entity) (e : Entity) :
  (strings.Contains text (ToLower (Name e)) = true ->
   forall kw, In kw (keywordsOf ToLower e) -> strings.Contains text kw = true)
  /\ (In e (relatedByName ToLower text entities) ->
      In e (relatedByKeyword ToLower text entities)).
Proof.
  assert (G : strings.Contains text (ToLower (Name e)) = true ->
              forall kw, In kw (keywordsOf ToLower e) ->
                         strings.Contains text kw = true).
  { intros H kw Hkw. apply Contains_spec. apply Contains_spec in H.
    apply (is_substring_trans _ (ToLower (Name e))); [|exact H].
    now apply (Split_pieces _ " "%char). }
  split; [exact G|].
  rewrite relatedByName_filter, relatedByKeyword_filter, !filter_In.
  intros [Hin H]. split; [exact Hin|].
  apply existsb_exists.
  pose proof (Split_nonempty (ToLower (Name e)) " "%char) as Hn.
  unfold keywordsOf in *.
  destruct (strings.Split (ToLower (Name e)) " ") as [|kw kws] eqn:E;
    [contradiction|].
  exists kw. split; [now left|]. apply G; [exact H|now left].
Qed.

Example keyword_match_is_weaker_example :
  let tc := ContextualizeTask strings.ToLowerASCII 0 exTask
              (mkContext [] [mkEntity "Morning Journaling Ritual" ""]
                            [mkEntity "Morning Journaling Ritual" ""]) in
  TaskContext.RelatedProjects tc = []
  /\ map Name (TaskContext.RelatedConcepts tc) = ["Morning Journaling Ritual"].
Proof. vm_compute. split; reflexivity. Qed.

(** ** Contextualizer: the weight and the order of the concepts *)

(** Two values above zero neither of which exceeds the other are the same
    value. *)
Lemma SFltb_antisym_pos (a b : spec_float) :
  SFltb float64.zero a = true -> SFltb float64.zero b = true ->
  SFltb a b = false -> SFltb b a = false -> a = b.
Proof.
  unfold float64.zero, SFltb, SFcompare.
  destruct a as [?|?| |? ? ?], b as [?|?| |? ? ?];
    try discriminate;
    repeat match goal with s : bool |- _ => destruct s end;
    try discriminate; try reflexivity;
    change (Pos.compare_cont Eq) with Pos.compare;
    intros _ _ H1 H2; compare_cases; try discriminate; try lia; congruence.
Qed.

(** The running maximum is the start, or a span strictly above the start. *)
Lemma maxSpan_fold_strict (l : list Entity) :
  forall m0 : spec_float,
    let r := fold_left
               (fun maxSpan concept =>
                  let years := GetSpanYears concept in
                  if float64.gtb years maxSpan then years else maxSpan) l m0 in
    r = m0 \/ exists c, In c l /\ r = GetSpanYears c /\ float64.gtb r m0 = true.
Proof.
  unfold float64.gtb.
  induction l as [|c l IH]; intros m0; simpl; [auto|].
  destruct (SFltb m0 (GetSpanYears c)) eqn:E.
  - right. destruct (IH (GetSpanYears c)) as [H|[c' [Hc' [H1 H2]]]].
    + exists c. rewrite H. auto.
    + exists c'. split; [auto|]. split; [exact H1|].
      exact (SFltb_trans _ _ _ E H2).
  - destruct (IH m0) as [H|[c' [Hc' [H1 H2]]]]; [auto|].
    right. exists c'. auto.
Qed.

(** What determines the weight: it is a number that no span of the list
    exceeds, and it is zero or a span of the list above zero.  At most one
    value is such. *)
Lemma maxSpanOf_char (l : list Entity) :
  (forall c, In c l -> float64.gtb (GetSpanYears c) (maxSpanOf l) = false)
  /\ (maxSpanOf l = float64.zero
      \/ exists c, In c l /\ maxSpanOf l = GetSpanYears c
                   /\ float64.gtb (maxSpanOf l) float64.zero = true).
Proof.
  unfold maxSpanOf.
  destruct (maxSpan_fold l float64.zero) as [_ [_ [Hall _]]]; [discriminate|].
  split; [exact Hall|]. apply maxSpan_fold_strict.
Qed.

Lemma maxSpanOf_members (l l' : list Entity) :
  (forall c, In c l <-> In c l') -> maxSpanOf l = maxSpanOf l'.
Proof.
  intros Hm.
  destruct (maxSpanOf_char l) as [Hall [Hz|[c [Hc [Hr Hpos]]]]];
    destruct (maxSpanOf_char l') as [Hall' [Hz'|[c' [Hc' [Hr' Hpos']]]]].
  - congruence.
  - apply Hm in Hc'. specialize (Hall c' Hc').
    rewrite <- Hr', Hz in Hall. congruence.
  - apply Hm in Hc. specialize (Hall' c Hc).
    rewrite <- Hr, Hz' in Hall'. congruence.
  - apply Hm in Hc'. apply Hm in Hc.
    specialize (Hall c' Hc'). specialize (Hall' c Hc).
    rewrite <- Hr' in Hall. rewrite <- Hr in Hall'.
    unfold float64.gtb in *.
    now apply SFltb_antisym_pos.
Qed.

(** X6. The historical weight does not depend on the order in which the
    gazetteer lists its concepts, nor on how often it lists one: two
    snapshots whose concept lists have the same members give every task the
    same weight, whatever else differs between them. *)
Theorem HistoricalWeight_order_independent (ToLower : string -> string)
    (now now' : Z) (task : Task) (context context' : InertiaContext.t) :
  (forall c, In c (Concepts (InertiaContext.Gazetteer context))
             <-> In c (Concepts (InertiaContext.Gazetteer context'))) ->
  TaskContext.HistoricalWeight (ContextualizeTask ToLower now task context)
  = TaskContext.HistoricalWeight (ContextualizeTask ToLower now' task context').
Proof.
  intros Hm. simpl. apply maxSpanOf_members. intros c.
  rewrite !relatedByKeyword_filter, !filter_In, Hm. reflexivity.
Qed.

Lemma HistoricalWeight_order_independent_witness :
  TaskContext.HistoricalWeight
    (ContextualizeTask strings.ToLowerASCII 0 exTask exContext)
  = TaskContext.HistoricalWeight
      (ContextualizeTask strings.ToLowerASCII 5 exTask exContextShuffled).
Proof.
  apply (HistoricalWeight_order_independent strings.ToLowerASCII 0 5 exTask
           exContext exContextShuffled).
  intros c. simpl. tauto.
Defined.

(** ** Spans are numbers *)

Lemma of_decimal_number (neg : bool) (m : N) (e : Z) (x : spec_float) :
  float64.of_decimal neg m e = Some x -> is_number x = true.
Proof.
  unfold float64.of_decimal.
  match goal with |- context [match ?r with _ => _ end = Some x] => destruct r end;
    intros H; inversion H; reflexivity.
Qed.

Lemma GetSpanYears_number (e : Entity) : is_number (GetSpanYears e) = true.
Proof.
  unfold GetSpanYears, json.Unmarshal_float64, json.store_float64,
    json.float_of_number.
  destruct (String.length (SpanYears e) =? 0)%nat; [reflexivity|].
  destruct (json.parse (SpanYears e)) as [v|]; [|reflexivity].
  destruct v; try reflexivity.
  destruct (float64.of_decimal _ _ _) eqn:E; [|reflexivity].
  exact (of_decimal_number _ _ _ _ E).
Qed.

(** X7. A span is always a number, whatever bytes the snapshot holds for it:
    malformed text, a JSON value of another kind and a numeral beyond the
    range of [float64] all count as zero, so neither NaN nor an infinity
    comes out of [GetSpanYears], and the historical weight is a number
    too. *)
Theorem GetSpanYears_is_number (e : Entity) :
  is_number (GetSpanYears e) = true
  /\ forall ToLower now task context,
       is_number (TaskContext.HistoricalWeight
                    (ContextualizeTask ToLower now task context)) = true.
Proof.
  split; [apply GetSpanYears_number|].
  intros ToLower now task context.
  change (is_number
            (maxSpanOf (relatedByKeyword ToLower (taskText ToLower task)
                          (Concepts (InertiaContext.Gazetteer context))))
          = true).
  destruct (maxSpanOf_char
              (relatedByKeyword ToLower (taskText ToLower task)
                 (Concepts (InertiaContext.Gazetteer context))))
    as [_ [E|[c [_ [E _]]]]]; rewrite E.
  - reflexivity.
  - apply GetSpanYears_number.
Qed.

Example GetSpanYears_examples :
  GetSpanYears (mkEntity "a" "1e999") = float64.zero
  /\ GetSpanYears (mkEntity "a" (dq "'12'")) = float64.zero
  /\ GetSpanYears (mkEntity "a" "null") = float64.zero
  /\ GetSpanYears (mkEntity "a" "12 years") = float64.zero
  /\ GetSpanYears (mkEntity "a" " 12 ") = float64.of_int 12.
Proof. repeat split; vm_compute; reflexivity. Qed.

(** ** The years of a concept line *)

Lemma string_of_uint_digits (d : Decimal.uint) :
  all_digits (NilEmpty.string_of_uint d) = true.
Proof. induction d; simpl; auto. Qed.

Lemma Itoa_numeral (n : Z) : 0 <= n -> is_numeral (strconv.Itoa n) = true
                                       /\ all_digits (strconv.Itoa n) = true.
Proof.
  intros Hn. unfold strconv.Itoa.
  destruct n as [|p|p]; [split; reflexivity| |lia].
  simpl. unfold NilZero.string_of_uint.
  pose proof (string_of_uint_digits (Pos.to_uint p)) as H.
  destruct (Pos.to_uint p) eqn:E; try (split; reflexivity);
    simpl in H |- *; split; exact H.
Qed.

Lemma round_half_even_nonneg (m : positive) (e : Z) :
  0 <= fmt.round_half_even m e.
Proof.
  unfold fmt.round_half_even. destruct e as [|p|p].
  - rewrite Z.pow_0_r. lia.
  - assert (0 < 2 ^ Z.pos p) by (apply Z.pow_pos_nonneg; lia). nia.
  - assert (0 < 2 ^ Z.pos p) as Hd by (apply Z.pow_pos_nonneg; lia).
    pose proof (Z.div_pos (Z.pos m) (2 ^ Z.pos p) ltac:(lia) Hd).
    cbv zeta. destruct (Z.compare _ _); [destruct (Z.even _)| |]; lia.
Qed.

Lemma Float0_numeral (x : spec_float) :
  is_number x = true -> is_numeral (fmt.Float0 x) = true.
Proof.
  destruct x as [s|s| |s m e]; try discriminate; intros _.
  - destruct s; reflexivity.
  - unfold fmt.Float0.
    destruct (Itoa_numeral _ (round_half_even_nonneg m e)) as [H1 H2].
    destruct s; [|exact H1].
    change ("-" +:+ strconv.Itoa (fmt.round_half_even m e))
      with (String "-"%char (strconv.Itoa (fmt.round_half_even m e))).
    destruct (strconv.Itoa (fmt.round_half_even m e)) as [|c r];
      [discriminate|exact H2].
Qed.

(** X8. The years a prompt shows for a concept are always a whole decimal
    numeral, digits after an optional minus sign: the span is a number, and
    [%.0f] prints a number without fraction, exponent or decimal point,
    never as NaN or Inf. *)
Theorem Float0_span_numeral (c : Entity) :
  is_numeral (fmt.Float0 (GetSpanYears c)) = true.
Proof. apply Float0_numeral, GetSpanYears_number. Qed.

Example Float0_examples :
  map (fun span => fmt.Float0 (GetSpanYears (mkEntity "c" span)))
      ["10"; "0.4"; "0.5"; "1.5"; "2.5"; "-0.4"; "1e23"; "1e999"; "n/a"]
  = ["10"; "0"; "0"; "2"; "2"; "-0"; "99999999999999991611392"; "0"; "0"].
Proof. vm_compute. reflexivity. Qed.

(** ** Response parser: prose around the object *)

Lemma prefix_single (c a : ascii) (s : string) :
  String.prefix (String c EmptyString) (String a s) = Ascii.eqb c a.
Proof.
  cbn [String.prefix].
  destruct (Ascii.ascii_dec c a) as [->|Hne].
  - rewrite Ascii.eqb_refl. apply prefix_empty.
  - symmetry. now apply Ascii.eqb_neq.
Qed.

Lemma no_substring_cons (sub : string) (a : ascii) (s : string) :
  ~ is_substring sub (String a s) ->
  String.prefix sub (String a s) = false /\ ~ is_substring sub s.
Proof.
  intros H. split.
  - destruct (String.prefix sub (String a s)) eqn:P; [|reflexivity].
    exfalso. apply H. apply prefix_spec in P. destruct P as [post P].
    now exists EmptyString, post.
  - intros Hs. apply H. now apply is_substring_cons.
Qed.

(** The first occurrence of a byte that a string starts with, after a text
    without that byte. *)
Lemma IndexFrom_skip (c : ascii) (pre s : string) (i : Z) :
  ~ is_substring (String c EmptyString) pre ->
  strings.IndexFrom i (pre +:+ String c s) (String c EmptyString)
  = i + Z.of_nat (String.length pre).
Proof.
  revert i; induction pre as [|a pre IH]; intros i H.
  - change (EmptyString +:+ String c s) with (String c s).
    cbn [strings.IndexFrom]. rewrite prefix_single, Ascii.eqb_refl. simpl. lia.
  - change (String a pre +:+ String c s) with (String a (pre +:+ String c s)).
    destruct (no_substring_cons _ _ _ H) as [P H'].
    cbn [strings.IndexFrom]. rewrite prefix_single in *. rewrite P.
    rewrite IH by exact H'. cbn [String.length]. lia.
Qed.

Lemma LastIndexFrom_absent (sub s : string) (i : Z) :
  ~ is_substring sub s -> strings.LastIndexFrom i s sub = -1.
Proof.
  revert i; induction s as [|a s IH]; intros i H; cbn [strings.LastIndexFrom].
  - destruct (String.prefix sub EmptyString) eqn:P; [|reflexivity].
    exfalso. apply H. apply prefix_spec in P. destruct P as [post P].
    now exists EmptyString, post.
  - destruct (no_substring_cons _ _ _ H) as [P H'].
    rewrite (IH (i + 1) H'). change (0 <=? -1) with false. cbv iota.
    now rewrite P.
Qed.

(** The last occurrence of a byte that is followed by a text without it. *)
Lemma LastIndexFrom_skip (c : ascii) (s post : string) (i : Z) :
  0 <= i ->
  ~ is_substring (String c EmptyString) post ->
  strings.LastIndexFrom i (s +:+ String c post) (String c EmptyString)
  = i + Z.of_nat (String.length s).
Proof.
  revert i; induction s as [|a s IH]; intros i Hi H.
  - change (EmptyString +:+ String c post) with (String c post).
    cbn [strings.LastIndexFrom].
    rewrite (LastIndexFrom_absent _ _ (i + 1) H).
    change (0 <=? -1) with false. cbv iota.
    rewrite prefix_single, Ascii.eqb_refl. simpl. lia.
  - change (String a s +:+ String c post) with (String a (s +:+ String c post)).
    cbn [strings.LastIndexFrom].
    rewrite IH by (try lia; exact H).
    destruct (Z.leb_spec 0 (i + 1 + Z.of_nat (String.length s))); [|lia].
    cbn [String.length]. lia.
Qed.

Lemma substring_skip (pre s : string) (n : nat) :
  String.substring (String.length pre) n (pre +:+ s) = String.substring 0 n s.
Proof. induction pre as [|a pre IH]; [reflexivity|exact IH]. Qed.

Lemma substring_take (s post : string) :
  String.substring 0 (String.length s) (s +:+ post) = s.
Proof.
  induction s as [|a s IH]; [now destruct post|].
  change (String a (String.substring 0 (String.length s) (s +:+ post))
          = String a s).
  now rewrite IH.
Qed.

(** The payload of an object in prose that holds no brace of its own. *)
Lemma payload_of_wrapped (pre inner post : string) :
  ~ is_substring "{" pre ->
  ~ is_substring "}" post ->
  let body := "{" +:+ inner +:+ "}" in
  strings.Index (pre +:+ body +:+ post) "{" = Z.of_nat (String.length pre)
  /\ strings.LastIndex (pre +:+ body +:+ post) "}"
     = Z.of_nat (String.length pre + String.length inner + 1)
  /\ payload_of (pre +:+ body +:+ post) = Some body.
Proof.
  intros Hpre Hpost body.
  assert (E1 : strings.Index (pre +:+ body +:+ post) "{"
               = Z.of_nat (String.length pre)).
  { unfold strings.Index, body.
    change ("{" +:+ inner +:+ "}") with (String "{"%char (inner +:+ "}")).
    change (String "{"%char (inner +:+ "}") +:+ post)
      with (String "{"%char ((inner +:+ "}") +:+ post)).
    rewrite IndexFrom_skip by exact Hpre. lia. }
  assert (E2 : strings.LastIndex (pre +:+ body +:+ post) "}"
               = Z.of_nat (String.length pre + String.length inner + 1)).
  { unfold strings.LastIndex, body.
    replace (pre +:+ ("{" +:+ inner +:+ "}") +:+ post)
      with ((pre +:+ "{" +:+ inner) +:+ String "}"%char post)
      by (now rewrite !string_app_assoc).
    rewrite LastIndexFrom_skip by (try lia; exact Hpost).
    rewrite !string_app_length. simpl. lia. }
  split; [exact E1|]. split; [exact E2|].
  unfold payload_of, slice. rewrite E1, E2.
  rewrite !string_app_length. unfold body at 1 2. rewrite !string_app_length.
  simpl String.length.
  match goal with |- (if ?b then _ else _) = _ =>
    replace b with true by (symmetry; rewrite !andb_true_iff, !Z.leb_le; lia) end.
  f_equal. rewrite Nat2Z.id.
  replace (Z.to_nat (Z.of_nat (String.length pre + String.length inner + 1) + 1
                     - Z.of_nat (String.length pre)))
    with (String.length body)
    by (unfold body; rewrite !string_app_length; simpl; lia).
  rewrite substring_skip. apply substring_take.
Qed.

(** X9. Prose around the object does not change the decision: for a payload
    that starts with an opening brace and ends with a closing one, text
    before it without an opening brace and text after it without a closing
    one are cut away, and the parser answers as on the payload alone. *)
Theorem ParseDecisionResponse_ignores_prose (pre inner post taskID : string) :
  ~ is_substring "{" pre ->
  ~ is_substring "}" post ->
  let body := "{" +:+ inner +:+ "}" in
  ParseDecisionResponse (pre +:+ body +:+ post) taskID
  = ParseDecisionResponse body taskID.
Proof.
  intros Hpre Hpost body.
  destruct (payload_of_wrapped pre inner post Hpre Hpost) as [E1 [E2 E3]].
  assert (Hnil : ~ is_substring "{" EmptyString /\ ~ is_substring "}" EmptyString).
  { split; intros [p [q H]]; destruct p; discriminate. }
  destruct (payload_of_wrapped EmptyString inner EmptyString
              (proj1 Hnil) (proj2 Hnil)) as [F1 [F2 F3]].
  fold body in E1, E2, E3, F1, F2, F3.
  change (EmptyString +:+ body +:+ EmptyString) with (body +:+ EmptyString)
    in F1, F2, F3.
  rewrite string_app_nil_r in F1, F2, F3.
  rewrite !ParseDecisionResponse_brackets by lia.
  now rewrite E3, F3.
Qed.

Lemma ParseDecisionResponse_ignores_prose_witness :
  ParseDecisionResponse exResponse "123"
  = ParseDecisionResponse
      (dq "{'action': 'decompose', 'subtasks': ['a', 'b'], 'reasoning': 'x'}")
      "123".
Proof.
  apply (ParseDecisionResponse_ignores_prose "Some chatter "
           (dq "'action': 'decompose', 'subtasks': ['a', 'b'], 'reasoning': 'x'")
           " bye" "123").
  - intros H. apply Contains_spec in H. vm_compute in H. discriminate.
  - intros H. apply Contains_spec in H. vm_compute in H. discriminate.
Defined.

Lemma ParseDecisionResponse_degrades_witness :
  Decision.Action (skipDecision "123" "JSON parse error: invalid JSON input") = "skip"
  /\ Decision.Reasoning (skipDecision "123" "JSON parse error: invalid JSON input")
     <> EmptyString.
Proof.
  apply (ParseDecisionResponse_degrades (dq "{'action': 'skip', }") "123").
  - vm_compute. reflexivity.
  - right. right. exists (dq "{'action': 'skip', }"), json.SyntaxError.
    split; vm_compute; reflexivity.
Defined.

(** ** Decision executor: the commands of a decision *)

Section ExecutorRuns.

Context {W : Type} {R : runner.CommandRunner W}.

Lemma runTd_world (st : W * list string) (args : list string) (failure : string) :
  fst (runTd st args failure) = fst (runner.Run (fst st) "td" args).
Proof.
  destruct st as [w logs]. unfold runTd. simpl.
  destruct (runner.Run w "td" args) as [w' [err|]]; reflexivity.
Qed.

Lemma fold_runTd_world (args : string -> list string) (failure : string)
    (subtasks : list string) :
  forall st : W * list string,
    fst (fold_left (fun st subtask => runTd st (args subtask) failure) subtasks st)
    = runCommands (fst st) (map (fun subtask => "td" :: args subtask) subtasks).
Proof.
  induction subtasks as [|x subtasks IH]; intros st; [reflexivity|].
  cbn [fold_left map]. rewrite IH, runTd_world. reflexivity.
Qed.

Lemma ExecuteDecision_world (w : W) (d : Decision.t) :
  fst (ExecuteDecision w d) = runCommands w (commandsOf d).
Proof.
  unfold ExecuteDecision, commandsOf.
  destruct (String.eqb (Decision.Action d) "skip") eqn:E0.
  { apply String.eqb_eq in E0. rewrite E0. reflexivity. }
  destruct (String.eqb (Decision.Action d) "reprioritize").
  { destruct (Decision.Priority d); [|reflexivity]. now rewrite runTd_world. }
  destruct (String.eqb (Decision.Action d) "recontextualize").
  { destruct (Decision.NewContent d); [|reflexivity]. now rewrite runTd_world. }
  destruct (String.eqb (Decision.Action d) "decompose").
  { exact (fold_runTd_world
             (fun subtask => ["task"; "add"; subtask; "--parent"; Decision.TaskID d])
             _ _ (w, [])). }
  destruct (String.eqb (Decision.Action d) "ice-box"); reflexivity.
Qed.

End ExecutorRuns.

Lemma runCommands_mock (cmds : list (list string)) :
  (forall c, In c cmds -> c <> []) ->
  forall m : runner.MockRunner,
    runner.CalledCommands (runCommands m cmds) = runner.CalledCommands m ++ cmds
    /\ runner.Outputs (runCommands m cmds) = runner.Outputs m
    /\ runner.Errors (runCommands m cmds) = runner.Errors m
    /\ runner.StdinSent (runCommands m cmds) = runner.StdinSent m.
Proof.
  induction cmds as [|c cmds IH]; intros Hne m.
  - simpl. now rewrite app_nil_r.
  - assert (Hc : c <> []) by (apply Hne; now left).
    destruct c as [|name args]; [contradiction|].
    unfold runCommands. cbn [fold_left]. fold (runCommands (W := runner.MockRunner)).
    destruct (IH (fun c' H => Hne c' (or_intror H))
                 (fst (runner.Run m (hd EmptyString (name :: args))
                         (tl (name :: args))))) as [H1 [H2 [H3 H4]]].
    unfold runCommands in H1, H2, H3, H4 |- *.
    rewrite H1, H2, H3, H4. simpl. now rewrite <- app_assoc.
Qed.

Lemma commandsOf_nonempty (d : Decision.t) (c : list string) :
  In c (commandsOf d) -> c <> [].
Proof.
  unfold commandsOf.
  destruct (String.eqb (Decision.Action d) "reprioritize").
  { destruct (Decision.Priority d); [intros [<-|[]]; discriminate|intros []]. }
  destruct (String.eqb (Decision.Action d) "recontextualize").
  { destruct (Decision.NewContent d); [intros [<-|[]]; discriminate|intros []]. }
  destruct (String.eqb (Decision.Action d) "decompose"); [|intros []].
  rewrite in_map_iff. intros [x [<- _]]. discriminate.
Qed.

(** X10. What the executor does to the world is to hand the commands of the
    decision to the runner one after the other, whatever each call reports:
    one [td task update] for a [reprioritize] or [recontextualize] that
    carries its value, one [td task add ... --parent] per subtask of a
    [decompose] in the order of the subtasks, and nothing for [skip],
    [ice-box] and any other action.  The recording runner has these
    commands appended to its record and is otherwise unchanged; a failing
    call stops nothing. *)
Theorem ExecuteDecision_commands (d : Decision.t) :
  (forall (W : Type) (R : runner.CommandRunner W) (w : W),
     fst (ExecuteDecision w d) = runCommands w (commandsOf d))
  /\ (forall m : runner.MockRunner,
        let m' := fst (ExecuteDecision m d) in
        runner.CalledCommands m' = runner.CalledCommands m ++ commandsOf d
        /\ runner.Outputs m' = runner.Outputs m
        /\ runner.Errors m' = runner.Errors m
        /\ runner.StdinSent m' = runner.StdinSent m).
Proof.
  split.
  - intros W R w. apply ExecuteDecision_world.
  - intros m. cbv zeta. rewrite ExecuteDecision_world.
    apply runCommands_mock. apply commandsOf_nonempty.
Qed.

Example ExecuteDecision_decompose_example :
  runner.CalledCommands (fst (ExecuteDecision (failingMock "td" "boom") decompose9))
  = [["td"; "task"; "add"; "Call the bank"; "--parent"; "9"];
     ["td"; "task"; "add"; "Pay debt"; "--parent"; "9"]]
  /\ snd (ExecuteDecision (failingMock "td" "boom") decompose9)
     = ["Failed to add subtask to 9: boom"; "Failed to add subtask to 9: boom"].
Proof. split; vm_compute; reflexivity. Qed.

(** ** Decision executor: the log *)

Lemma runTd_mock (m : runner.MockRunner) (logs : list string)
    (args : list string) (failure : string) :
  runTd (m, logs) args failure
  = (runner.record_call m "td" args,
     logs ++ match runner.Errors m !! "td" with
             | Some err => [failure +:+ ": " +:+ err]
             | None => []
             end).
Proof.
  unfold runTd. simpl.
  destruct (runner.Errors m !! "td"); [reflexivity|now rewrite app_nil_r].
Qed.

Lemma fold_runTd_mock_logs (args : string -> list string) (failure : string)
    (subtasks : list string) :
  forall (m : runner.MockRunner) (logs : list string),
    snd (fold_left (fun st subtask => runTd st (args subtask) failure)
           subtasks (m, logs))
    = logs ++ match runner.Errors m !! "td" with
              | Some err => map (fun _ => failure +:+ ": " +:+ err) subtasks
              | None => []
              end.
Proof.
  induction subtasks as [|x subtasks IH]; intros m logs.
  - simpl. destruct (runner.Errors m !! "td"); now rewrite app_nil_r.
  - cbn [fold_left]. rewrite runTd_mock, IH. simpl.
    destruct (runner.Errors m !! "td"); simpl.
    + now rewrite <- app_assoc.
    + now rewrite !app_nil_r.
Qed.

(** X11. The executor logs one line for each command that fails and goes on:
    with a runner on which [td] fails every command of the decision is still
    issued and each leaves its line, all ending with the error; with a
    runner on which it succeeds nothing is logged by a command.  The only
    other line is the notice of an [ice-box] decision, which issues no
    command. *)
Theorem ExecuteDecision_logs (m : runner.MockRunner) (d : Decision.t) :
  let logs := snd (ExecuteDecision m d) in
  length logs
  = (match runner.Errors m !! "td" with
     | Some _ => length (commandsOf d)
     | None => 0
     end + (if String.eqb (Decision.Action d) "ice-box" then 1 else 0))%nat
  /\ (String.eqb (Decision.Action d) "ice-box" = false ->
      forall line, In line logs ->
        exists err prefix, runner.Errors m !! "td" = Some err
                           /\ line = prefix +:+ ": " +:+ err).
Proof.
  cbv zeta. unfold ExecuteDecision, commandsOf.
  destruct (String.eqb (Decision.Action d) "skip") eqn:E0.
  { apply String.eqb_eq in E0. rewrite E0. simpl.
    split; [now destruct (runner.Errors m !! "td")|intros _ line []]. }
  destruct (String.eqb (Decision.Action d) "reprioritize") eqn:E1.
  { apply String.eqb_eq in E1. rewrite E1.
    change (String.eqb "reprioritize" "ice-box") with false.
    destruct (Decision.Priority d).
    - rewrite runTd_mock. simpl.
      destruct (runner.Errors m !! "td") as [err|]; simpl;
        (split; [reflexivity|]); [intros _ line [<-|[]]; eauto|intros _ line []].
    - simpl. split; [now destruct (runner.Errors m !! "td")|intros _ line []]. }
  destruct (String.eqb (Decision.Action d) "recontextualize") eqn:E2.
  { apply String.eqb_eq in E2. rewrite E2.
    change (String.eqb "recontextualize" "ice-box") with false.
    destruct (Decision.NewContent d).
    - rewrite runTd_mock. simpl.
      destruct (runner.Errors m !! "td") as [err|]; simpl;
        (split; [reflexivity|]); [intros _ line [<-|[]]; eauto|intros _ line []].
    - simpl. split; [now destruct (runner.Errors m !! "td")|intros _ line []]. }
  destruct (String.eqb (Decision.Action d) "decompose") eqn:E3.
  { apply String.eqb_eq in E3. rewrite E3.
    change (String.eqb "decompose" "ice-box") with false.
    rewrite (fold_runTd_mock_logs
               (fun subtask => ["task"; "add"; subtask; "--parent"; Decision.TaskID d])).
    simpl. destruct (runner.Errors m !! "td") as [err|]; simpl.
    - rewrite !length_map. split; [lia|].
      intros _ line Hl. apply in_map_iff in Hl. destruct Hl as [x [<- _]]. eauto.
    - split; [reflexivity|intros _ line []]. }
  destruct (String.eqb (Decision.Action d) "ice-box") eqn:E4; simpl.
  - split; [now destruct (runner.Errors m !! "td")|discriminate].
  - split; [now destruct (runner.Errors m !! "td")|intros _ line []].
Qed.

(** ** Decision prompt *)

Lemma fold_append_lines {A : Type} (f : A -> string) (l : list A) :
  forall sb : string,
    fold_left (fun sb x => sb +:+ f x) l sb = sb +:+ concat_lines (map f l).
Proof.
  induction l as [|x l IH]; intros sb.
  - simpl. now rewrite string_app_nil_r.
  - cbn [fold_left map]. rewrite IH.
    change (concat_lines (f x :: map f l)) with (f x +:+ concat_lines (map f l)).
    now rewrite string_app_assoc.
Qed.

Lemma BuildDecisionPrompt_eq (taskCtx : TaskContext.t) :
  BuildDecisionPrompt taskCtx
  = promptHeader taskCtx
    +:+ promptSection "Related concepts from diary history:"
          (map conceptLine (TaskContext.RelatedConcepts taskCtx))
    +:+ promptSection "Related projects:"
          (map projectLine (TaskContext.RelatedProjects taskCtx))
    +:+ instructions.
Proof.
  unfold BuildDecisionPrompt, promptHeader, promptSection. cbv zeta.
  destruct (TaskContext.RelatedConcepts taskCtx) as [|c cs];
    destruct (TaskContext.RelatedProjects taskCtx) as [|p ps];
    rewrite ?fold_append_lines; cbn [map]; cbv iota;
    rewrite !string_app_assoc; reflexivity.
Qed.

Lemma concat_lines_In (line : string) (lines : list string) :
  In line lines -> is_substring line (concat_lines lines).
Proof.
  induction lines as [|l lines IH]; intros H; [destruct H|].
  change (concat_lines (l :: lines)) with (l +:+ concat_lines lines).
  destruct H as [->|H].
  - apply is_substring_app_l, is_substring_refl.
  - now apply is_substring_app_r, IH.
Qed.

Lemma promptSection_In (title line : string) (lines : list string) :
  In line lines -> is_substring line (promptSection title lines).
Proof.
  intros H. unfold promptSection.
  destruct lines as [|l lines]; [destruct H|].
  apply is_substring_app_r, is_substring_app_r, is_substring_app_l.
  now apply concat_lines_In.
Qed.

(** X12. The prompt is its header, the block of the related concepts, the
    block of the related projects and the fixed instructions, in this
    order: the builder's loops write one line per concept and per project
    in the order of the lists, and a block, with its title and its closing
    empty line, is written only for a list that is not empty.  So the
    prompt shows the line of every related concept and of every related
    project. *)
Theorem BuildDecisionPrompt_layout (taskCtx : TaskContext.t) :
  let prompt := BuildDecisionPrompt taskCtx in
  prompt
  = promptHeader taskCtx
    +:+ promptSection "Related concepts from diary history:"
          (map conceptLine (TaskContext.RelatedConcepts taskCtx))
    +:+ promptSection "Related projects:"
          (map projectLine (TaskContext.RelatedProjects taskCtx))
    +:+ instructions
  /\ (forall c, In c (TaskContext.RelatedConcepts taskCtx) ->
                is_substring (conceptLine c) prompt)
  /\ (forall p, In p (TaskContext.RelatedProjects taskCtx) ->
                is_substring (projectLine p) prompt).
Proof.
  cbv zeta. split; [apply BuildDecisionPrompt_eq|].
  rewrite BuildDecisionPrompt_eq. split.
  - intros c Hc. apply is_substring_app_r, is_substring_app_l.
    apply promptSection_In. now apply in_map.
  - intros p Hp.
    apply is_substring_app_r, is_substring_app_r, is_substring_app_l.
    apply promptSection_In. now apply in_map.
Qed.

(** X13. The prompt is made of the task's content and priority, the age,
    the energy, mood and environment of the state, and the lines of the
    related concepts and projects, and of nothing else: task contexts that
    agree on these have the same prompt.  The task's id and description,
    the related people, the work volatility, the historical weight, and the
    fraction of a concept's span do not reach the reasoning engine. *)
Theorem BuildDecisionPrompt_inputs (tc tc' : TaskContext.t) :
  Content (TaskContext.Task tc) = Content (TaskContext.Task tc') ->
  Priority (TaskContext.Task tc) = Priority (TaskContext.Task tc') ->
  TaskContext.AgeDays tc = TaskContext.AgeDays tc' ->
  Energy (TaskContext.State tc) = Energy (TaskContext.State tc') ->
  Mood (TaskContext.State tc) = Mood (TaskContext.State tc') ->
  Environment (TaskContext.State tc) = Environment (TaskContext.State tc') ->
  map conceptLine (TaskContext.RelatedConcepts tc)
  = map conceptLine (TaskContext.RelatedConcepts tc') ->
  map projectLine (TaskContext.RelatedProjects tc)
  = map projectLine (TaskContext.RelatedProjects tc') ->
  BuildDecisionPrompt tc = BuildDecisionPrompt tc'.
Proof.
  intros H1 H2 H3 H4 H5 H6 H7 H8.
  rewrite !BuildDecisionPrompt_eq. unfold promptHeader. cbv zeta.
  now rewrite H1, H2, H3, H4, H5, H6, H7, H8.
Qed.

Lemma BuildDecisionPrompt_inputs_witness :
  TaskContext.HistoricalWeight exTaskContext
  <> TaskContext.HistoricalWeight exTaskContextOther
  /\ BuildDecisionPrompt exTaskContext = BuildDecisionPrompt exTaskContextOther.
Proof.
  split; [vm_compute; discriminate|].
  apply (BuildDecisionPrompt_inputs exTaskContext exTaskContextOther);
    vm_compute; reflexivity.
Defined.

(** ** Reasoning-engine call *)

Lemma ParseDecisionResponse_task_id (response taskID : string) (d : Decision.t) :
  ParseDecisionResponse response taskID = Returned d -> Decision.TaskID d = taskID.
Proof.
  unfold ParseDecisionResponse.
  destruct ((strings.Index response "{" =? -1)
            || (strings.LastIndex response "}" =? -1)).
  { intros H. now inversion H. }
  destruct (slice response _ _) as [jsonStr|]; [|discriminate].
  destruct (json.Unmarshal_decision jsonStr); intros H; now inversion H.
Qed.

(** X14. Processing a task calls the reasoning engine once, through the
    runner, with the prompt of the contextualized task on its standard
    input.  When the call fails the result is a [skip] decision that carries
    the error, and one log line, whatever the engine printed; when it
    succeeds the result is what the parser makes of the output.  A decision
    that is returned is always for the task that was processed. *)
Theorem ProcessTask_outcome (W : Type) (R : runner.CommandRunner W)
    (ToLower : string -> string) (now : Z) (w : W) (task : Task)
    (context : InertiaContext.t) :
  let taskCtx := ContextualizeTask ToLower now task context in
  let call := runner.RunWithStdin w (BuildDecisionPrompt taskCtx) "openclaw" ["chat"] in
  let result := ProcessTask ToLower now w task context in
  fst (fst result) = fst call
  /\ match snd call with
     | (_, Some err) =>
         snd result = Returned (skipDecision (ID task) ("LLM call failed: " +:+ err))
         /\ snd (fst result)
            = ["LLM call failed for task " +:+ ID task +:+ ": " +:+ err]
     | (output, None) =>
         snd result = ParseDecisionResponse output (ID task)
         /\ snd (fst result) = []
     end
  /\ (forall d, snd result = Returned d -> Decision.TaskID d = ID task).
Proof.
  cbv zeta. unfold ProcessTask, CallAgentForDecision.
  change (TaskContext.Task (ContextualizeTask ToLower now task context)) with task.
  destruct (runner.RunWithStdin w _ "openclaw" ["chat"]) as [w' [output [err|]]];
    simpl; (split; [reflexivity|]); (split; [split; reflexivity|]).
  - intros d H. now inversion H.
  - intros d H. exact (ParseDecisionResponse_task_id _ _ _ H).
Qed.

(** X15. On the recording runner a call of the reasoning engine leaves
    exactly one more command in the record, [openclaw chat], and the prompt
    as the standard input last sent; a failure of the engine gives a
    returned [skip] decision even where its output is one the parser would
    panic on. *)
Theorem CallAgentForDecision_recorded (m : runner.MockRunner)
    (taskCtx : TaskContext.t) :
  let result := CallAgentForDecision m taskCtx in
  let m' := fst (fst result) in
  runner.CalledCommands m' = runner.CalledCommands m ++ [["openclaw"; "chat"]]
  /\ runner.StdinSent m' = BuildDecisionPrompt taskCtx
  /\ runner.Outputs m' = runner.Outputs m
  /\ runner.Errors m' = runner.Errors m
  /\ (forall err, runner.Errors m !! "openclaw" = Some err ->
        snd result
        = Returned (skipDecision (ID (TaskContext.Task taskCtx))
                      ("LLM call failed: " +:+ err)))
  /\ (runner.Errors m !! "openclaw" = None ->
      snd result
      = ParseDecisionResponse (default EmptyString (runner.Outputs m !! "openclaw"))
          (ID (TaskContext.Task taskCtx))).
Proof.
  cbv zeta. unfold CallAgentForDecision. simpl.
  destruct (runner.Errors m !! "openclaw") as [e|]; simpl;
    repeat (split; [reflexivity|]); split.
  - intros err H. now inversion H.
  - discriminate.
  - discriminate.
  - reflexivity.
Qed.

Example CallAgentForDecision_broken_engine :
  snd (CallAgentForDecision brokenEngine exTaskContext)
  = Returned (skipDecision "1" "LLM call failed: exit status 1")
  /\ ParseDecisionResponse "} {" "1" = Panicked "slice bounds out of range".
Proof. split; vm_compute; reflexivity. Qed.

(** ** Parallel dispatcher: completion *)

Section DispatcherAccounts.

Import Dispatcher.

Lemma count_length (f : phase -> bool) (ws : list (Task * phase)) :
  (count f ws <= length ws)%nat.
Proof. unfold count. apply List.filter_length_le. Qed.


(** A worker that satisfies [f] is somewhere in the list when the count is
    not zero. *)
Lemma count_pos (f : phase -> bool) (ws : list (Task * phase)) :
  (0 < count f ws)%nat ->
  exists ws1 t ph ws2, ws = ws1 ++ (t, ph) :: ws2 /\ f ph = true.
Proof.
  induction ws as [|[t ph] ws IH]; [rewrite count_nil; lia|].
  rewrite count_cons. simpl. destruct (f ph) eqn:E.
  - intros _. now exists [], t, ph, ws.
  - intros H. destruct (IH H) as [ws1 [t' [ph' [ws2 [-> E']]]]].
    now exists ((t, ph) :: ws1), t', ph', ws2.
Qed.

Variable maxConcurrency : nat.

Lemma dispatcher_accounts_init (tasks : list Task) :
  dispatcher_accounts tasks (init tasks).
Proof.
  unfold dispatcher_accounts. simpl.
  repeat split; try lia; try discriminate.
Qed.

Lemma dispatcher_accounts_step (tasks : list Task) (s s' : state) :
  dispatcher_accounts tasks s -> step maxConcurrency s s' ->
  dispatcher_accounts tasks s'.
Proof.
  unfold dispatcher_accounts.
  intros [H1 [H2 [H3 [H4 H5]]]] Hstep.
  destruct Hstep; simpl in *;
    repeat match goal with
           | H : pc _ = _ |- _ => rewrite H in *
           | H : workers _ = _ |- _ => rewrite H in *
           | H : results _ = _ |- _ => rewrite H in *
           | H : closed _ = _ |- _ => rewrite H in *
           | H : wg _ = _ |- _ => rewrite H in *
           end;
    rewrite ?count_middle, ?count_app, ?count_cons, ?count_nil,
      ?length_app in *;
    simpl in *;
    repeat apply conj; intros;
    repeat match goal with
           | Hd : ?p = Done, H5 : ?p = Done -> _ |- _ =>
               destruct (H5 Hd) as [? ?]; clear H5
           end;
    repeat match goal with
           | Hc : ?c = true, H4 : ?c = true -> _ |- _ =>
               destruct (H4 Hc) as [? [? ?]]; clear H4
           end;
    repeat apply conj;
    try discriminate; try congruence; try lia; try reflexivity.
Qed.

Lemma dispatcher_accounts_reachable (tasks : list Task) (s : state) :
  reachable maxConcurrency tasks s -> dispatcher_accounts tasks s.
Proof.
  induction 1 as [|s s' _ IH Hstep].
  - apply dispatcher_accounts_init.
  - exact (dispatcher_accounts_step tasks s s' IH Hstep).
Qed.



Lemma count_none_exited (ws : list (Task * phase)) :
  count not_done ws = 0%nat -> forall t ph, In (t, ph) ws -> ph = Exited.
Proof.
  induction ws as [|[t0 ph0] ws IH]; intros H t ph Hin; [destruct Hin|].
  rewrite count_cons in H. simpl in H.
  destruct Hin as [E|Hin].
  - inversion E. subst. destruct ph; simpl in H; try lia. reflexivity.
  - apply (IH ltac:(lia) t ph Hin).
Qed.

(** A worker that has not finished can take its next step: the only
    guarded one, the deferred receive from [sem], finds the token that the
    worker's own slot accounts for. *)
Lemma worker_can_step (s : state) ws1 (t : Task) (ph : phase) ws2 :
  workers s = ws1 ++ (t, ph) :: ws2 ->
  not_done ph = true ->
  sem s = slot_holders s ->
  exists s', step maxConcurrency s s'.
Proof.
  intros Hw Hph Hsem. destruct ph; try discriminate.
  - eexists. exact (step_call _ s ws1 t ws2 Hw).
  - eexists. exact (step_return _ s ws1 t ws2 (skipDecision "" "") Hw).
  - eexists. exact (step_publish _ s ws1 t ws2 d Hw).
  - unfold slot_holders in Hsem. rewrite Hw, count_middle in Hsem. simpl in Hsem.
    destruct (sem s) as [|n] eqn:E; [lia|].
    eexists. exact (step_release _ s ws1 t ws2 n Hw E).
  - eexists. exact (step_done _ s ws1 t ws2 Hw).
Qed.

Lemma holds_slot_not_done (ph : phase) : holds_slot ph = true -> not_done ph = true.
Proof. now destruct ph. Qed.

End DispatcherAccounts.



Lemma exPublished_reachable : Dispatcher.reachable 1 [exTask; exTask2] exPublished.
Proof.
  pose proof exBusy_reachable as R.
  dispatcher_step R
    ltac:(fun s => constr:(Dispatcher.step_return 1 s [] exTask [] exDecision
                             eq_refl)).
  dispatcher_step R
    ltac:(fun s => constr:(Dispatcher.step_publish 1 s [] exTask [] exDecision
                             eq_refl)).
  exact R.
Qed.

(** X17. The channel of results is used safely.  The decisions in its
    buffer and those collected are the ones of the workers that have sent,
    so the buffer never holds more than [len(tasks)] decisions, the
    capacity it was made with, and no send blocks; and once the channel is
    closed every worker has finished, so nothing is sent on a closed
    channel. *)
Theorem ProcessTasksParallel_results_safe (K : nat) (tasks : list Task)
    (s : Dispatcher.state) :
  Dispatcher.reachable K tasks s ->
  (length (Dispatcher.results s) + length (Dispatcher.decisions s)
   = Dispatcher.count has_published (Dispatcher.workers s))%nat
  /\ (length (Dispatcher.results s) + length (Dispatcher.decisions s)
      <= length tasks)%nat
  /\ (Dispatcher.closed s = true ->
      forall t ph, In (t, ph) (Dispatcher.workers s) -> ph = Dispatcher.Exited).
Proof.
  intros Hreach.
  destruct (dispatcher_accounts_reachable K tasks s Hreach)
    as [H1 [H2 [H3 [H4 H5]]]].
  split; [exact H3|]. split.
  - pose proof (count_length has_published (Dispatcher.workers s)). lia.
  - intros Hclosed. destruct (H4 Hclosed) as [_ [Hn _]].
    apply count_none_exited. exact Hn.
Qed.

Lemma ProcessTasksParallel_results_safe_witness :
  (length (Dispatcher.results exPublished) + length (Dispatcher.decisions exPublished)
   = Dispatcher.count has_published (Dispatcher.workers exPublished))%nat
  /\ (length (Dispatcher.results exPublished)
      + length (Dispatcher.decisions exPublished) <= 2)%nat
  /\ (Dispatcher.closed exPublished = true ->
      forall t ph, In (t, ph) (Dispatcher.workers exPublished) ->
                   ph = Dispatcher.Exited).
Proof.
  exact (ProcessTasksParallel_results_safe 1 [exTask; exTask2] exPublished
           exPublished_reachable).
Defined.

(** X18. Under a bound of at least one the dispatcher cannot get stuck:
    in every state of every execution, until the caller has returned, some
    thread can take a step.  The loop waits at the semaphore only while a
    worker holds a slot, and that worker can go on; the caller waits for
    results only while a worker has not finished or the channel is still to
    be closed. *)
Theorem ProcessTasksParallel_no_deadlock (K : nat) (tasks : list Task)
    (s : Dispatcher.state) :
  (1 <= K)%nat ->
  Dispatcher.reachable K tasks s ->
  Dispatcher.pc s <> Dispatcher.Done ->
  exists s', Dispatcher.step K s s'.
Proof.
  intros HK Hreach Hpc.
  destruct (dispatcher_accounts_reachable K tasks s Hreach)
    as [H1 [H2 [H3 [H4 H5]]]].
  destruct (slots_accounted_reachable K tasks s Hreach) as [Hsem Hcap].
  destruct (Dispatcher.pc s) as [rest|t rest|t rest| |] eqn:E;
    [| | | |contradiction].
  - destruct rest as [|t rest].
    + eexists. exact (Dispatcher.step_loop_end K s E).
    + eexists. exact (Dispatcher.step_add K s t rest E).
  - destruct (Nat.lt_ge_cases (Dispatcher.sem s) K) as [Hlt|Hge].
    + eexists. exact (Dispatcher.step_acquire K s t rest E Hlt).
    + assert (Hpos : (0 < Dispatcher.count Dispatcher.holds_slot
                            (Dispatcher.workers s))%nat).
      { unfold Dispatcher.slot_holders in Hsem. rewrite E in Hsem. lia. }
      destruct (count_pos _ _ Hpos) as [ws1 [t' [ph [ws2 [Hw Hph]]]]].
      exact (worker_can_step K s ws1 t' ph ws2 Hw
               (holds_slot_not_done ph Hph) Hsem).
  - eexists. exact (Dispatcher.step_go K s t rest E).
  - destruct (Dispatcher.results s) as [|d ds] eqn:Eres.
    + destruct (Dispatcher.closed s) eqn:Ecl.
      * eexists. exact (Dispatcher.step_finish K s E Eres Ecl).
      * destruct (Dispatcher.wg s) as [|n] eqn:Ewg.
        -- eexists. exact (Dispatcher.step_close K s E Ewg Ecl).
        -- assert (Hpos : (0 < Dispatcher.count not_done
                                 (Dispatcher.workers s))%nat)
             by (simpl in H2; lia).
           destruct (count_pos _ _ Hpos) as [ws1 [t' [ph [ws2 [Hw Hph]]]]].
           exact (worker_can_step K s ws1 t' ph ws2 Hw Hph Hsem).
    + eexists. exact (Dispatcher.step_collect K s d ds E Eres).
Qed.

Lemma ProcessTasksParallel_no_deadlock_witness :
  exists s', Dispatcher.step 1 exBusy s'.
Proof.
  apply (ProcessTasksParallel_no_deadlock 1 [exTask; exTask2] exBusy).
  - lia.
  - exact exBusy_reachable.
  - discriminate.
Defined.

(** X19. With a bound of zero the first send on the semaphore blocks for
    ever: over a task list that is not empty the dispatcher starts no
    worker, collects nothing and never returns. *)
Theorem ProcessTasksParallel_zero_bound (tasks : list Task)
    (s : Dispatcher.state) :
  tasks <> [] ->
  Dispatcher.reachable 0 tasks s ->
  Dispatcher.workers s = []
  /\ Dispatcher.decisions s = []
  /\ Dispatcher.pc s <> Dispatcher.Done
  /\ (s <> Dispatcher.init tasks -> forall s', ~ Dispatcher.step 0 s s').
Proof.
  intros Hne Hreach.
  assert (G : s = Dispatcher.init tasks
              \/ exists t rest, tasks = t :: rest
                   /\ s = {| Dispatcher.pc := Dispatcher.Acquire t rest;
                             Dispatcher.sem := 0; Dispatcher.wg := 1;
                             Dispatcher.workers := []; Dispatcher.results := [];
                             Dispatcher.closed := false;
                             Dispatcher.decisions := [] |}).
  { induction Hreach as [|s s' _ IH Hstep]; [now left|].
    right. destruct IH as [->|[t [rest [Ht ->]]]].
    - inversion Hstep; subst; simpl in *;
        try match goal with
            | H : [] = _ ++ _ :: _ |- _ => now destruct (app_cons_not_nil _ _ _ H)
            end;
        try discriminate; try congruence.
      exists t, rest. split; [congruence|reflexivity].
    - inversion Hstep; subst; simpl in *;
        try match goal with
            | H : [] = _ ++ _ :: _ |- _ => now destruct (app_cons_not_nil _ _ _ H)
            end;
        try discriminate; try lia. }
  destruct G as [->|[t [rest [Ht ->]]]]; simpl.
  - repeat split; try discriminate. intros H. contradiction.
  - repeat split; try discriminate. intros _ s' Hstep.
    inversion Hstep; subst; simpl in *;
      try match goal with
          | H : [] = _ ++ _ :: _ |- _ => now destruct (app_cons_not_nil _ _ _ H)
          end;
      try discriminate; try lia.
Qed.

Lemma ProcessTasksParallel_zero_bound_witness :
  Dispatcher.workers exStuck = []
  /\ Dispatcher.decisions exStuck = []
  /\ Dispatcher.pc exStuck <> Dispatcher.Done
  /\ (exStuck <> Dispatcher.init [exTask] ->
      forall s', ~ Dispatcher.step 0 exStuck s').
Proof.
  apply (ProcessTasksParallel_zero_bound [exTask] exStuck).
  - discriminate.
  - exact (Dispatcher.reach_step 0 [exTask] _ _ (Dispatcher.reach_init 0 [exTask])
             (Dispatcher.step_add 0 (Dispatcher.init [exTask]) exTask [] eq_refl)).
Defined.

(** ** The command line: the other options *)

Lemma Parse_keeps_others (ParseInt : string -> option Z) (n : nat) :
  forall (args : list string) (f f' : flag.Flags),
    (length args <= n)%nat ->
    flag.Parse ParseInt args f = inl f' ->
    ((forall a, In a args -> names_flag "dry-run" a = false) ->
     flag.dryRun f' = flag.dryRun f)
    /\ ((forall a, In a args -> names_flag "concurrency" a = false) ->
        flag.maxConcurrency f' = flag.maxConcurrency f).
Proof.
  induction n as [|n IH]; intros args f f' Hlen Hparse.
  - destruct args; [|simpl in Hlen; lia]. simpl in Hparse.
    inversion Hparse. auto.
  - destruct args as [|s rest]; [simpl in Hparse; inversion Hparse; auto|].
    simpl in Hlen. cbn [flag.Parse] in Hparse.
    assert (Hnames : forall name body,
               flag.flag_body s = Some body ->
               String.eqb (fst (flag.split_eq body)) name = true ->
               (forall a, In a (s :: rest) -> names_flag name a = false) -> False).
    { intros name body Hb He Hno. specialize (Hno s (or_introl eq_refl)).
      unfold names_flag in Hno. rewrite Hb, He in Hno. discriminate. }
    destruct (flag.flag_body s) as [body|] eqn:Hb; [|inversion Hparse; auto].
    destruct (String.eqb s "--"); [inversion Hparse; auto|].
    destruct (String.prefix "-" body || String.prefix "=" body); [discriminate|].
    specialize (Hnames) with (body := body).
    destruct (flag.split_eq body) as [name value]. simpl in Hnames.
    destruct (String.eqb name "context") eqn:Ec.
    { destruct value as [v|].
      - apply IH in Hparse; [|lia]. simpl in Hparse.
        destruct Hparse as [P1 P2].
        split; intros Hno; [apply P1|apply P2]; intros a Ha; apply Hno; now right.
      - destruct rest as [|v rest']; [discriminate|].
        apply IH in Hparse; [|simpl in Hlen; lia]. simpl in Hparse.
        destruct Hparse as [P1 P2].
        split; intros Hno; [apply P1|apply P2]; intros a Ha; apply Hno;
          right; now right. }
    destruct (String.eqb name "dry-run") eqn:Ed.
    { assert (Q : forall b, flag.Parse ParseInt rest
                              {| flag.contextFile := flag.contextFile f;
                                 flag.dryRun := b;
                                 flag.maxConcurrency := flag.maxConcurrency f |}
                            = inl f' ->
                  ((forall a, In a (s :: rest) -> names_flag "dry-run" a = false) ->
                   flag.dryRun f' = flag.dryRun f)
                  /\ ((forall a, In a (s :: rest) ->
                                 names_flag "concurrency" a = false) ->
                      flag.maxConcurrency f' = flag.maxConcurrency f)).
      { intros b Hp. apply IH in Hp; [|lia]. simpl in Hp. destruct Hp as [_ P2].
        split; intros Hno.
        - now destruct (Hnames "dry-run" eq_refl Ed Hno).
        - apply P2. intros a Ha. apply Hno. now right. }
      destruct value as [v|]; [|exact (Q true Hparse)].
      destruct (flag.ParseBool v) as [b|]; [|discriminate]. exact (Q b Hparse). }
    destruct (String.eqb name "concurrency") eqn:En.
    { destruct value as [v|].
      - destruct (ParseInt v) as [k|]; [|discriminate].
        apply IH in Hparse; [|lia]. simpl in Hparse. destruct Hparse as [P1 _].
        split; intros Hno.
        + apply P1. intros a Ha. apply Hno. now right.
        + now destruct (Hnames "concurrency" eq_refl En Hno).
      - destruct rest as [|v rest']; [discriminate|].
        destruct (ParseInt v) as [k|]; [|discriminate].
        apply IH in Hparse; [|simpl in Hlen; lia]. simpl in Hparse.
        destruct Hparse as [P1 _].
        split; intros Hno.
        + apply P1. intros a Ha. apply Hno. right. now right.
        + now destruct (Hnames "concurrency" eq_refl En Hno). }
    destruct (String.eqb name "help" || String.eqb name "h"); discriminate.
Qed.

(** X20. The other two options are optional too, with the defaults that
    [main] declares: after an accepted command line the run is not a dry run
    unless an argument names [dry-run], and the bound of the dispatcher is
    10 unless an argument names [concurrency]. *)
Theorem main_default_flags (ParseInt : string -> option Z)
    (args : list string) (f : flag.Flags) :
  flag.Parse ParseInt args flag.defaults = inl f ->
  ((forall a, In a args -> names_flag "dry-run" a = false) ->
   flag.dryRun f = false)
  /\ ((forall a, In a args -> names_flag "concurrency" a = false) ->
      flag.maxConcurrency f = 10).
Proof.
  intros E.
  exact (Parse_keeps_others ParseInt (length args) args flag.defaults f
           (Nat.le_refl _) E).
Qed.

Lemma main_default_flags_witness :
  flag.Parse ParseIntDecimal ["--context"; "ctx.json"] flag.defaults = inl exFlags
  /\ flag.dryRun exFlags = false
  /\ flag.maxConcurrency exFlags = 10.
Proof.
  split; [reflexivity|].
  destruct (main_default_flags ParseIntDecimal ["--context"; "ctx.json"] exFlags
              eq_refl) as [H1 H2].
  split; [apply H1|apply H2]; intros a [<-|[<-|[]]]; reflexivity.
Defined.

(** An option given twice: the last one counts; a value that is not a
    number, or no value at all, ends the process with status 2. *)
Example flag_Parse_examples :
  flag.Parse ParseIntDecimal ["--concurrency"; "5"; "-concurrency=20"] flag.defaults
  = inl {| flag.contextFile := "logs/inertia-context-2026-02-22.json";
           flag.dryRun := false; flag.maxConcurrency := 20 |}
  /\ flag.Parse ParseIntDecimal ["--dry-run"; "--concurrency"; "many"] flag.defaults
     = inr 2
  /\ flag.Parse ParseIntDecimal ["--dry-run=false"; "--concurrency"] flag.defaults
     = inr 2.
Proof. repeat split. Qed.
